(** * The countries REST API of [app.py], embedded in Rocq

    The Flask application keeps one module-level list, [countries], of Python
    dicts and exposes seven handlers over it.  The embedding below keeps the
    data as the code has it (a list of string-keyed dicts of JSON values),
    threads the list through every handler as explicit state, and keeps the
    ways a handler can stop early apart: [abort(code)], [abort(code, e)] with
    an exception object as description, and any other Python exception; the
    last two [handle_exception] turns into a 500. *)

From Stdlib Require Import ZArith Ascii String Floats.SpecFloat.
From stdpp Require Import gmap strings list fin_maps sorting.

Set Warnings "-register-all,-clear-no-such-hyp".
Local Open Scope Z_scope.

(** ** JSON values

    What [json.loads] produces: [None], [bool], [int], [float], [str],
    [list] and [dict] with string keys.  A float is kept as its IEEE-754
    description; the code never computes on one unless it is an id. *)

Inductive value :=
  | JNull
  | JBool (b : bool)
  | JInt (z : Z)
  | JFloat (f : spec_float)
  | JStr (s : string)
  | JList (l : list value)
  | JDict (d : gmap string value).

(** A Python dict with string keys: a record of the store, a payload. *)
Abbreviation dict := (gmap string value).

(** ** The module-level constants *)

(** [countries], lines 73-77. *)
Definition countries : list dict :=
  [ {[ "id" := JInt 1; "name" := JStr "Thailand";
       "capital" := JStr "Bangkok"; "area" := JInt 513120 ]};
    {[ "id" := JInt 2; "name" := JStr "Australia";
       "capital" := JStr "Canberra"; "area" := JInt 7617930 ]};
    {[ "id" := JInt 3; "name" := JStr "Egypt";
       "capital" := JStr "Cairo"; "area" := JInt 1010408 ]} ].

(** The tuple [expected_payload_attributes], bound afresh with the same
    three strings in [add_country], [put_country] and [patch_country]. *)
Definition expected_payload_attributes : list string :=
  ["name"; "capital"; "area"]%string.

(** ** Python primitives the handlers use *)

(** Numbers, for the two places where the code computes on an id:
    [country["id"] == int(parm_id)] and [max(...) + 1].  Python compares an
    int with a float exactly, so every number is read as [m * 2^e], an
    infinity or a NaN. *)
Inductive num := NInt (z : Z) | NFloat (f : spec_float).

Inductive xreal := XNaN | XInf (negative : bool) | XDy (m e : Z).

Definition as_number (v : value) : option num :=
  match v with
  | JBool b => Some (NInt (if b then 1 else 0))
  | JInt z => Some (NInt z)
  | JFloat f => Some (NFloat f)
  | _ => None
  end.

Definition num_xreal (n : num) : xreal :=
  match n with
  | NInt z => XDy z 0
  | NFloat (S754_zero _) => XDy 0 0
  | NFloat (S754_infinity s) => XInf s
  | NFloat S754_nan => XNaN
  | NFloat (S754_finite s m e) => XDy (cond_Zopp s (Z.pos m)) e
  end.

Definition xreal_compare (a b : xreal) : option comparison :=
  match a, b with
  | XNaN, _ | _, XNaN => None
  | XInf s1, XInf s2 =>
      Some (match s1, s2 with
            | true, false => Lt
            | false, true => Gt
            | _, _ => Eq
            end)
  | XInf s, XDy _ _ => Some (if s then Lt else Gt)
  | XDy _ _, XInf s => Some (if s then Gt else Lt)
  | XDy m1 e1, XDy m2 e2 =>
      let e := Z.min e1 e2 in
      Some (m1 * 2 ^ (e1 - e) ?= m2 * 2 ^ (e2 - e))
  end.

Definition num_compare (a b : num) : option comparison :=
  xreal_compare (num_xreal a) (num_xreal b).

(** [a > b] on numbers; false as soon as a NaN is involved. *)
Definition num_gt (a b : num) : bool :=
  match num_compare a b with Some Gt => true | _ => false end.

(** [v == n] for an int [n]: a number equal to [n], nothing else. *)
Definition py_eq_int (v : value) (n : Z) : bool :=
  match as_number v with
  | Some a => match num_compare a (NInt n) with Some Eq => true | _ => false end
  | None => false
  end.

(** [x + 1]: int arithmetic on an int, binary64 addition on a float. *)
Definition num_succ (a : num) : value :=
  match a with
  | NInt z => JInt (z + 1)
  | NFloat f => JFloat (SFadd 53 1024 f (S754_finite false 1 0))
  end.

(** The loop of the built-in [max]: keep the first element, replace it by
    each later one that is [>] it. *)
Fixpoint max_loop (cur : num) (rest : list num) : num :=
  match rest with
  | [] => cur
  | x :: rest' => max_loop (if num_gt x cur then x else cur) rest'
  end.

(** [int(parm_id)] on the str Flask takes from the URL, as CPython 3.11
    computes it.  A Python str is a sequence of code points; a [string] here
    is its UTF-8 encoding.  CPython first maps every code point from 127 up
    to ASCII (a Unicode space to a blank, a Unicode decimal digit to its
    ASCII digit, anything else to a character no number contains) and then
    parses the ASCII text: blanks, tabs and line breaks are dropped at both
    ends, one sign is allowed, the digits may be separated by single
    underscores, and more than 4300 digits are refused.  [None] is the
    [ValueError]. *)

Definition bytes_of (s : string) : list Z :=
  (λ a, Z.of_nat (nat_of_ascii a)) <$> list_ascii_of_string s.

(** A continuation byte of UTF-8 and its six bits. *)
Definition is_cont (b : Z) : bool := (128 <=? b) && (b <? 192).
Definition cont (b : Z) : Z := b - 128.

(** The code points of a well-formed UTF-8 text (shortest form only, no
    surrogates); [None] when the bytes encode no str. *)
Fixpoint utf8_decode (l : list Z) : option (list Z) :=
  match l with
  | [] => Some []
  | b0 :: r1 =>
      if b0 <? 128 then cons b0 <$> utf8_decode r1
      else match r1 with
      | [] => None
      | b1 :: r2 =>
          if negb (is_cont b1) then None
          else if (194 <=? b0) && (b0 <? 224)
          then cons ((b0 - 192) * 64 + cont b1) <$> utf8_decode r2
          else match r2 with
          | [] => None
          | b2 :: r3 =>
              if negb (is_cont b2) then None
              else if (224 <=? b0) && (b0 <? 240) then
                let cp := (b0 - 224) * 4096 + cont b1 * 64 + cont b2 in
                if (2048 <=? cp) && negb ((55296 <=? cp) && (cp <? 57344))
                then cons cp <$> utf8_decode r3 else None
              else match r3 with
              | [] => None
              | b3 :: r4 =>
                  if negb (is_cont b3) then None
                  else if (240 <=? b0) && (b0 <? 245) then
                    let cp := (b0 - 240) * 262144 + cont b1 * 4096
                              + cont b2 * 64 + cont b3 in
                    if (65536 <=? cp) && (cp <? 1114112)
                    then cons cp <$> utf8_decode r4 else None
                  else None
              end
          end
      end
  end.

(** The white space of [str.isspace] from code point 127 up. *)
Definition unicode_space (cp : Z) : bool :=
  bool_decide (cp ∈ [133; 160; 5760; 8232; 8233; 8239; 8287; 12288])
  || ((8192 <=? cp) && (cp <=? 8202)).

(** The decimal digits of Unicode 14.0 outside ASCII: each entry is the
    code point of a zero, followed by the digits one to nine. *)
Definition decimal_zeros : list Z :=
  [
    1632; 1776; 1984; 2406; 2534; 2662; 2790; 2918;
    3046; 3174; 3302; 3430; 3558; 3664; 3792; 3872;
    4160; 4240; 6112; 6160; 6470; 6608; 6784; 6800;
    6992; 7088; 7232; 7248; 42528; 43216; 43264; 43472;
    43504; 43600; 44016; 65296; 66720; 68912; 69734; 69872;
    69942; 70096; 70384; 70736; 70864; 71248; 71360; 71472;
    71904; 72016; 72784; 73040; 73120; 92768; 92864; 93008;
    120782; 120792; 120802; 120812; 120822; 123200; 123632; 125264;
    130032 ].

Definition unicode_decimal (cp : Z) : option Z :=
  (λ z, cp - z) <$> (snd <$> list_find (λ z, z ≤ cp ∧ cp < z + 10) decimal_zeros).

(** The ASCII character CPython parses in place of a code point; 63 is the
    question mark. *)
Definition to_ascii (cp : Z) : Z :=
  if cp <? 127 then cp
  else if unicode_space cp then 32
  else match unicode_decimal cp with
       | Some d => 48 + d
       | None => 63
       end.

(** The white space of C's [isspace]: tab to carriage return, and blank. *)
Definition is_space (b : Z) : bool :=
  ((9 <=? b) && (b <=? 13)) || (b =? 32).

Definition digit_of (b : Z) : option Z :=
  if (48 <=? b) && (b <=? 57) then Some (b - 48) else None.

Fixpoint lstrip (l : list Z) : list Z :=
  match l with
  | b :: l' => if is_space b then lstrip l' else l
  | [] => []
  end.

Definition strip (l : list Z) : list Z :=
  rev (lstrip (rev (lstrip l))).

Fixpoint digits (acc : Z) (after_digit : bool) (l : list Z) : option Z :=
  match l with
  | [] => if after_digit then Some acc else None
  | b :: l' =>
      match digit_of b with
      | Some d => digits (10 * acc + d) true l'
      | None =>
          if (b =? 95) && after_digit
          then digits acc false l'
          else None
      end
  end.

(** [sys.get_int_max_str_digits()], the default. *)
Definition int_max_str_digits : nat := 4300.

Definition count_digits (l : list Z) : nat :=
  length (filter (λ b, is_Some (digit_of b)) l).

Definition parse_int (l : list Z) : option Z :=
  if (int_max_str_digits <? count_digits l)%nat then None
  else match strip l with
       | b :: l' =>
           if b =? 45 then Z.opp <$> digits 0 false l'
           else if b =? 43 then digits 0 false l'
           else digits 0 false (b :: l')
       | [] => None
       end.

Definition py_int (s : string) : option Z :=
  cps ← utf8_decode (bytes_of s);
  parse_int (to_ascii <$> cps).

(** [for key in v]: the keys of a dict, the items of a list, the characters
    of a str; [None] is the [TypeError] of the other values.  A dict is
    iterated in insertion order by Python and in key order here; the two
    loops that iterate a payload do not depend on the order (the first stops
    at any unknown key, the second assigns distinct keys). *)
Definition py_iter (v : value) : option (list value) :=
  match v with
  | JDict d => Some (JStr <$> (map_to_list d).*1)
  | JList l => Some l
  | JStr s => Some ((λ a, JStr (String a EmptyString)) <$> list_ascii_of_string s)
  | _ => None
  end.

(** [len(v)].  A str is counted in bytes here; the handlers reach [len] on a
    str only when it is empty, every character being an unknown key. *)
Definition py_len (v : value) : option nat :=
  match v with
  | JDict d => Some (size d)
  | JList l => Some (length l)
  | JStr s => Some (String.length s)
  | _ => None
  end.

(** [key in expected_payload_attributes]: tuple membership compares with
    [==], and only a str is equal to a str. *)
Definition py_in (key : value) (t : list string) : bool :=
  match key with
  | JStr s => bool_decide (s ∈ t)
  | _ => false
  end.

(** [payload[key]]: a dict is indexed by its keys, a list or a str by ints
    (negative ones count from the end, a bool is the int 0 or 1); [None] is
    the [KeyError], [IndexError] or [TypeError] of every other case, among
    them a list or a str indexed by a str. *)
Definition seq_index {A} (l : list A) (i : Z) : option A :=
  if 0 <=? i then l !! Z.to_nat i
  else if 0 <=? Z.of_nat (length l) + i
       then l !! Z.to_nat (Z.of_nat (length l) + i) else None.

Definition py_getitem (payload key : value) : option value :=
  match payload, as_number key with
  | JDict d, _ => match key with JStr k => d !! k | _ => None end
  | JList l, Some (NInt i) => seq_index l i
  | JStr s, Some (NInt i) =>
      (λ a, JStr (String a EmptyString)) <$> seq_index (list_ascii_of_string s) i
  | _, _ => None
  end.

(** ** Handlers as state transformers

    A handler runs on the current list and leaves a list behind, whether it
    returns or raises: Python undoes nothing when an exception propagates. *)

(** What a handler can raise: [abort(code)] raises the [HTTPException] of
    that code, with the text of the code as its description;
    [abort(code, e)], which the decorator of [add_country] calls with a
    [ValidationError], raises it with the exception object [e] as its
    description; everything else ([KeyError], [IndexError], [TypeError],
    [ValueError]) is an exception that [handle_exception] does not recognise. *)
Inductive exc :=
  | Abort (code : Z)
  | AbortError (code : Z)
  | Uncaught.

Inductive result (A : Type) :=
  | Ok (a : A)
  | Raise (e : exc).
Arguments Ok {A} a.
Arguments Raise {A} e.

Definition M (A : Type) : Type := list dict → result A * list dict.

#[export] Instance M_ret : MRet M := λ A a cs, (Ok a, cs).
#[export] Instance M_bind : MBind M := λ A B f m cs,
  match m cs with
  | (Ok a, cs') => f a cs'
  | (Raise e, cs') => (Raise e, cs')
  end.

Definition abort {A} (code : Z) : M A := λ cs, (Raise (Abort code), cs).
Definition abort_error {A} (code : Z) : M A := λ cs, (Raise (AbortError code), cs).
Definition raise {A} : M A := λ cs, (Raise Uncaught, cs).

(** A Python primitive that either gives a value or raises. *)
Definition lift {A} (o : option A) : M A :=
  match o with Some a => mret a | None => raise end.

(** Reading and writing the global list. *)
Definition get_store : M (list dict) := λ cs, (Ok cs, cs).
Definition set_store (cs' : list dict) : M unit := λ _, (Ok tt, cs').

(** [countries[i]], an [IndexError] out of range. *)
Definition countries_at (i : nat) : M dict :=
  cs ← get_store; lift (cs !! i).

(** The response of a handler that returns: the status code and the value
    that is serialised as the body. *)
Record response := Response { status : Z; body : value }.

(** The request body as Flask sees it.  [request.json] and
    [request.get_json()] abort with 415 when the content type is not JSON and
    with 400 when the body does not parse (Werkzeug 2.3 and later, the
    behaviour the comments of [add_country] describe); the parsed value is
    cached, so every later call returns the same object. *)
Inductive request :=
  | NotJson
  | BadJson
  | Json (v : value).

Definition get_json (req : request) : M value :=
  match req with
  | NotJson => abort 415
  | BadJson => abort 400
  | Json v => mret v
  end.

(** [_find_next_id], lines 80-81.  The generator reads [country["id"]] of
    every record ([KeyError] when one has none).  When every id is a number,
    [max] is the loop above and [+ 1] its successor.  Any other id ends in an
    exception: [>] between a number and a str, list, dict or [None] is a
    [TypeError], and where [max] returns one of those, [+ 1] is. *)
Definition _find_next_id : M value :=
  cs ← get_store;
  ids ← lift (mapM (λ c : dict, c !! "id") cs);
  nums ← lift (mapM as_number ids);
  match nums with
  | [] => raise
  | n :: rest => mret (num_succ (max_loop n rest))
  end.

(** [get_countries], lines 84-86. *)
Definition get_countries : M response :=
  cs ← get_store;
  mret (Response 200 (JList (JDict <$> cs))).

(** The key check that opens [add_country], [put_country] and
    [patch_country]:
    [for key in request.json: if key not in expected: abort(422)]. *)
Fixpoint check_keys (keys : list value) : M unit :=
  match keys with
  | [] => mret tt
  | key :: keys' =>
      if py_in key expected_payload_attributes then check_keys keys'
      else abort 422
  end.

(** The [schema] of lines 63-71 as [jsonschema.validate] reads it: the
    instance is an object; [name] and [capital] are present; [name] and
    [capital] are strings and [area] a number wherever they are present.
    For JSON Schema a bool is not a number. *)
Definition is_string (v : value) : bool :=
  match v with JStr _ => true | _ => false end.

Definition is_number (v : value) : bool :=
  match v with JInt _ | JFloat _ => true | _ => false end.

Definition property_ok (d : dict) (k : string) (ty : value → bool) : bool :=
  match d !! k with Some v => ty v | None => true end.

Definition validate (data : value) : bool :=
  match data with
  | JDict d =>
      property_ok d "name" is_string && property_ok d "capital" is_string
      && property_ok d "area" is_number
      && bool_decide (is_Some (d !! "name"))
      && bool_decide (is_Some (d !! "capital"))
  | _ => false
  end.

(** The decorator [@expects_json(schema)] of line 93: it reads the JSON
    body, calls [abort(400, 'Failed to decode JSON object')] when there is
    none ([None]), calls [abort(400, e)] with the [ValidationError] [e] when
    the body does not validate, and otherwise calls the handler. *)
Definition expects_json (req : request) : M unit :=
  data ← get_json req;
  match data with
  | JNull => abort 400
  | _ => if validate data then mret tt else abort_error 400
  end.

(** [country["id"] = v] on the decoded payload. *)
Definition set_id (country : value) (v : value) : M dict :=
  match country with
  | JDict d => mret (<["id" := v]> d)
  | _ => raise
  end.

(** [add_country], lines 92-131. *)
Definition add_country (req : request) : M response :=
  expects_json req;;
  json ← get_json req;
  keys ← lift (py_iter json);
  check_keys keys;;
  payload ← get_json req;
  n ← lift (py_len payload);
  first ← countries_at 0;
  if negb (n + 1 =? size first)%nat then abort 400 else
  country ← get_json req;
  next_id ← _find_next_id;
  country ← set_id country next_id;
  cs ← get_store;
  set_store (cs ++ [country]);;
  mret (Response 201 (JDict country)).

(** [get_country], lines 247-249. *)
Definition get_country : M response :=
  c ← countries_at 1;
  mret (Response 200 (JDict c)).

(** [country["id"] == int(parm_id)]: the left operand is read first
    ([KeyError]), then [int] is called ([ValueError]). *)
Definition id_matches (c : dict) (parm_id : string) : M bool :=
  id ← lift (c !! "id");
  n ← lift (py_int parm_id);
  mret (py_eq_int id n).

(** [get_country_by_id], lines 382-393.  [country_found] is still [False]
    whenever the loop ends, so the final test always aborts. *)
Fixpoint get_loop (parm_id : string) (cs : list dict) : M response :=
  match cs with
  | [] => abort 404
  | country :: cs' =>
      found ← id_matches country parm_id;
      if (found : bool) then mret (Response 200 (JDict country))
      else get_loop parm_id cs'
  end.

Definition get_country_by_id (parm_id : string) : M response :=
  cs ← get_store;
  get_loop parm_id cs.

(** [countries[i][key] = payload[key]] for every [key in payload], lines
    419-420 and 451-452.  The records are keyed by strings; a key that is not
    a str never comes this far, the 422 check having refused it. *)
Definition assign (i : nat) (payload key : value) : M unit :=
  v ← lift (py_getitem payload key);
  c ← countries_at i;
  match key with
  | JStr k => cs ← get_store; set_store (<[i := <[k := v]> c]> cs)
  | _ => raise
  end.

Fixpoint assign_loop (i : nat) (payload : value) (keys : list value) : M unit :=
  match keys with
  | [] => mret tt
  | key :: keys' => assign i payload key;; assign_loop i payload keys'
  end.

(** The scan that closes [put_country] (lines 415-425) and [patch_country]
    (lines 447-457), the same text in both:
    [for i in range(len(countries))], with the range computed once. *)
Fixpoint update_loop (parm_id : string) (payload : value) (idxs : list nat)
  : M response :=
  match idxs with
  | [] => abort 404
  | i :: idxs' =>
      c ← countries_at i;
      found ← id_matches c parm_id;
      if (found : bool) then
        keys ← lift (py_iter payload);
        assign_loop i payload keys;;
        c' ← countries_at i;
        mret (Response 200 (JDict c'))
      else update_loop parm_id payload idxs'
  end.

(** [put_country], lines 397-425. *)
Definition put_country (parm_id : string) (req : request) : M response :=
  json ← get_json req;
  keys ← lift (py_iter json);
  check_keys keys;;
  payload ← get_json req;
  n ← lift (py_len payload);
  first ← countries_at 0;
  if negb (n + 1 =? size first)%nat then abort 400 else
  cs ← get_store;
  update_loop parm_id payload (seq 0 (length cs)).

(** [patch_country], lines 429-457. *)
Definition patch_country (parm_id : string) (req : request) : M response :=
  json ← get_json req;
  keys ← lift (py_iter json);
  check_keys keys;;
  payload ← get_json req;
  n ← lift (py_len payload);
  first ← countries_at 0;
  if (size first <? n + 1)%nat then abort 400 else
  cs ← get_store;
  update_loop parm_id payload (seq 0 (length cs)).

(** [delete_country], lines 461-474. *)
Fixpoint delete_loop (parm_id : string) (idxs : list nat) : M response :=
  match idxs with
  | [] => abort 404
  | i :: idxs' =>
      c ← countries_at i;
      found ← id_matches c parm_id;
      if (found : bool) then
        cs ← get_store;
        set_store (delete i cs);;
        mret (Response 204 (JDict ∅))
      else delete_loop parm_id idxs'
  end.

Definition delete_country (parm_id : string) : M response :=
  cs ← get_store;
  delete_loop parm_id (seq 0 (length cs)).

(** [handle_exception], lines 136-160, as far as the status goes.  An
    [HTTPException] whose description is text keeps its own code.  When the
    description is an exception object, [json.dumps] raises [TypeError]
    inside the handler; Flask then treats the request as failed and answers
    500, as it does for any other exception. *)
Definition handle_exception (e : exc) : Z :=
  match e with
  | Abort code => code
  | AbortError _ => 500
  | Uncaught => 500
  end.

(** The status of the HTTP response Flask sends for a handler's outcome. *)
Definition http_status (r : result response) : Z :=
  match r with
  | Ok resp => status resp
  | Raise e => handle_exception e
  end.

(** ** The application: routing a request to its handler *)

Inductive call :=
  | GET_countries
  | POST_countries (req : request)
  | GET_country
  | GET_countries_id (parm_id : string)
  | PUT_countries_id (parm_id : string) (req : request)
  | PATCH_countries_id (parm_id : string) (req : request)
  | DELETE_countries_id (parm_id : string).

Definition dispatch (c : call) : M response :=
  match c with
  | GET_countries => get_countries
  | POST_countries req => add_country req
  | GET_country => get_country
  | GET_countries_id parm_id => get_country_by_id parm_id
  | PUT_countries_id parm_id req => put_country parm_id req
  | PATCH_countries_id parm_id req => patch_country parm_id req
  | DELETE_countries_id parm_id => delete_country parm_id
  end.

(** The lists the running application can hold: the initial one, and what
    any handler leaves behind, whether it returned or raised. *)
Inductive reachable : list dict → Prop :=
  | reachable_init : reachable countries
  | reachable_step c cs : reachable cs → reachable (dispatch c cs).2.

(** ** The shape of the store *)

(** The three attributes as a set, and the four keys of a record. *)
Definition expected_set : gset string := list_to_set expected_payload_attributes.
Definition country_fields : gset string := {["id"]} ∪ expected_set.

(** The id of a record when it is an int. *)
Definition int_id (c : dict) : option Z :=
  match c !! "id" with
  | Some (JInt n) => Some n
  | _ => None
  end.

Definition ids (cs : list dict) : list Z := omap int_id cs.

(** Every record has the keys [id], [name], [capital] and [area], and an
    int under [id]; no two records share an id. *)
Definition wf_country (c : dict) : Prop :=
  dom c = country_fields ∧ is_Some (int_id c).

Definition wf_store (cs : list dict) : Prop := Forall wf_country cs.

Definition store_inv (cs : list dict) : Prop :=
  wf_store cs ∧ NoDup (ids cs).

#[export] Instance wf_country_dec c : Decision (wf_country c).
Proof. unfold wf_country. apply _. Defined.

(** A record whose id is the int [n]; the first such record of a list, with
    its index. *)
Definition has_id (n : Z) (c : dict) : Prop := int_id c = Some n.

#[export] Instance has_id_dec n c : Decision (has_id n c).
Proof. unfold has_id. apply _. Defined.

Definition find_id (n : Z) (cs : list dict) : option (nat * dict) :=
  list_find (has_id n) cs.

(** The payload of the example in the documentation of [add_country]. *)
Definition germany : dict :=
  {[ "name" := JStr "Germany"; "capital" := JStr "Berlin";
     "area" := JInt 357022 ]}.

(** ** Vocabulary of the statements *)

(** A key that passes the test of the key check. *)
Definition recognized (key : value) : Prop :=
  py_in key expected_payload_attributes = true.

(** The key check as a whole, on the keys of a payload. *)
Definition all_recognized (keys : list value) : bool :=
  forallb (λ k, py_in k expected_payload_attributes) keys.

(** The dict a payload contributes to a record: itself when it is a dict;
    nothing otherwise, as then the loop only returns on an empty payload. *)
Definition payload_dict (payload : value) : dict :=
  match payload with
  | JDict d => d
  | _ => ∅
  end.

(** What makes a scan stop at [c]: its id is equal to [int(parm_id)]. *)
Definition matches (parm_id : string) (c : dict) : Prop :=
  ∃ v n, c !! "id" = Some v ∧ py_int parm_id = Some n ∧ py_eq_int v n = true.

(** The indices a scan has passed over: each holds a record that does not
    match. *)
Definition passed (parm_id : string) (cs : list dict) (idxs : list nat) : Prop :=
  Forall (λ j, ∃ cj : dict, cs !! j = Some cj ∧ ¬ matches parm_id cj) idxs.

(** The codes the handlers abort with. *)
Definition abort_codes : list Z := [400; 404; 415; 422].

(** * Properties *)

(** ** Python primitives on ints *)

Lemma num_compare_int x y : num_compare (NInt x) (NInt y) = Some (x ?= y).
Proof.
  unfold num_compare; simpl.
  by rewrite !Z.mul_1_r.
Qed.

Lemma num_gt_int x y : num_gt (NInt x) (NInt y) = bool_decide (y < x).
Proof.
  unfold num_gt. rewrite num_compare_int.
  destruct (Z.compare_spec x y); case_bool_decide; (done || lia).
Qed.

Lemma py_eq_int_JInt x n : py_eq_int (JInt x) n = bool_decide (x = n).
Proof.
  unfold py_eq_int. cbn [as_number]. rewrite num_compare_int.
  destruct (Z.compare_spec x n); case_bool_decide; (done || lia).
Qed.

Lemma max_loop_int a l :
  ∃ m, max_loop (NInt a) (NInt <$> l) = NInt m
       ∧ m ∈ a :: l ∧ ∀ x, x ∈ a :: l → x ≤ m.
Proof.
  revert a. induction l as [|b l IH]; intros a.
  - exists a. split; [done|]. split; [apply list_elem_of_here|].
    intros x Hx. apply list_elem_of_singleton in Hx. lia.
  - rewrite fmap_cons. cbn [max_loop].
    rewrite num_gt_int. case_bool_decide as Hab.
    + destruct (IH b) as (m & Heq & Hmem & Hle).
      exists m. split; [done|]. split; [by apply list_elem_of_further|].
      intros x [->|Hx]%elem_of_cons; [|by apply Hle].
      specialize (Hle b (list_elem_of_here _ _)). lia.
    + destruct (IH a) as (m & Heq & Hmem & Hle).
      exists m. split; [done|]. split.
      * apply elem_of_cons in Hmem as [->|Hmem]; [apply list_elem_of_here|].
        by do 2 apply list_elem_of_further.
      * intros x [->|[->|Hx]%elem_of_cons]%elem_of_cons.
        -- apply Hle, list_elem_of_here.
        -- specialize (Hle a (list_elem_of_here _ _)). lia.
        -- by apply Hle, list_elem_of_further.
Qed.

(** ** Records and stores *)

Lemma wf_country_id c : wf_country c → ∃ n, c !! "id" = Some (JInt n) ∧ int_id c = Some n.
Proof.
  intros [_ [n Hn]]. exists n. split; [|done].
  unfold int_id in Hn. destruct (c !! "id") as [[]|]; naive_solver.
Qed.

Lemma wf_country_size c : wf_country c → size c = 4%nat.
Proof.
  intros [Hdom _]. by rewrite <-size_dom, Hdom.
Qed.

Lemma wf_store_lookup cs i c : wf_store cs → cs !! i = Some c → wf_country c.
Proof. intros Hwf Hi. eapply Forall_lookup_1; eauto. Qed.

Lemma ids_cons c cs n : int_id c = Some n → ids (c :: cs) = n :: ids cs.
Proof. intros Hn. unfold ids. simpl. by rewrite Hn. Qed.

Lemma mapM_id_wf cs :
  wf_store cs → mapM (λ c : dict, c !! "id") cs = Some (JInt <$> ids cs).
Proof.
  intros Hwf. apply mapM_Some.
  induction Hwf as [|c cs Hc _ IH]; [constructor|].
  destruct (wf_country_id c Hc) as (n & Hid & Hn).
  rewrite (ids_cons _ _ _ Hn), fmap_cons. by constructor.
Qed.

Lemma mapM_as_number_int (l : list Z) :
  mapM as_number (JInt <$> l) = Some (NInt <$> l).
Proof.
  apply mapM_Some. induction l; [constructor|].
  rewrite !fmap_cons. by constructor.
Qed.

Lemma ids_length cs : wf_store cs → length (ids cs) = length cs.
Proof.
  induction 1 as [|c cs Hc _ IH]; [done|].
  destruct (wf_country_id c Hc) as (n & Hid & Hn).
  rewrite (ids_cons _ _ _ Hn). simpl. by rewrite IH.
Qed.

(** Closed decidable facts are settled by evaluation. *)
Ltac by_decide := apply (bool_decide_unpack _); exact I.

Lemma countries_inv : store_inv countries.
Proof.
  split.
  - unfold wf_store. by_decide.
  - by_decide.
Qed.

(** ** Running the monad *)

Ltac munfold :=
  unfold countries_at, lift, get_store, set_store, abort, abort_error, raise in *;
  unfold mbind, mret, M_bind, M_ret in *.

Lemma bind_ok {A B} (m : M A) (f : A → M B) cs a cs' :
  m cs = (Ok a, cs') → (m ≫= f) cs = f a cs'.
Proof. intros H. munfold. by rewrite H. Qed.

Lemma bind_raise {A B} (m : M A) (f : A → M B) cs e cs' :
  m cs = (Raise e, cs') → (m ≫= f) cs = (Raise e, cs').
Proof. intros H. munfold. by rewrite H. Qed.

Lemma countries_at_run i cs :
  countries_at i cs
  = (match cs !! i with Some c => Ok c | None => Raise Uncaught end, cs).
Proof. munfold. simpl. by destruct (cs !! i). Qed.

Lemma id_matches_run c parm_id cs :
  id_matches c parm_id cs
  = (match c !! "id", py_int parm_id with
     | Some v, Some n => Ok (py_eq_int v n)
     | _, _ => Raise Uncaught
     end, cs).
Proof.
  unfold id_matches. munfold. simpl.
  destruct (c !! "id"); [|done]. by destruct (py_int parm_id).
Qed.

(** ** The two checks on a payload *)

Lemma check_keys_run keys cs :
  check_keys keys cs
  = (if forallb (λ k, py_in k expected_payload_attributes) keys
     then Ok tt else Raise (Abort 422), cs).
Proof.
  induction keys as [|k keys IH]; [done|].
  cbn [check_keys forallb].
  destruct (py_in k expected_payload_attributes); [apply IH|done].
Qed.

Lemma check_keys_ok keys cs r :
  check_keys keys cs = (Ok tt, r) → Forall recognized keys.
Proof.
  rewrite check_keys_run.
  destruct (forallb _ keys) eqn:Hall; [|done]. intros _.
  apply Is_true_true, forallb_True in Hall.
  eapply Forall_impl; [exact Hall|]. intros k Hk. by apply Is_true_true.
Qed.

Lemma elem_of_dict_keys (d : dict) k :
  k ∈ (map_to_list d).*1 ↔ is_Some (d !! k).
Proof.
  rewrite list_elem_of_fmap. split.
  - intros ([k' v] & -> & Hkv). apply elem_of_map_to_list in Hkv. by exists v.
  - intros [v Hv]. exists (k, v). split; [done|]. by apply elem_of_map_to_list.
Qed.

Lemma recognized_JStr k : recognized (JStr k) ↔ k ∈ expected_set.
Proof.
  unfold recognized, py_in, expected_set.
  by rewrite bool_decide_eq_true, elem_of_list_to_set.
Qed.

Lemma recognized_inv key : recognized key → ∃ k, key = JStr k ∧ k ∈ expected_set.
Proof.
  destruct key; try done. intros H. eexists. split; [done|].
  by apply recognized_JStr.
Qed.

Lemma dict_keys_recognized (d : dict) :
  Forall recognized (JStr <$> (map_to_list d).*1) ↔ dom d ⊆ expected_set.
Proof.
  rewrite Forall_fmap, Forall_forall. split.
  - intros H k Hk. apply elem_of_dom in Hk.
    apply recognized_JStr, (H k). by apply elem_of_dict_keys.
  - intros H k Hk. apply recognized_JStr, H, elem_of_dom.
    by apply elem_of_dict_keys.
Qed.

Lemma check_keys_dict (d : dict) cs :
  check_keys (JStr <$> (map_to_list d).*1) cs
  = (if decide (dom d ⊆ expected_set) then Ok tt else Raise (Abort 422), cs).
Proof.
  rewrite check_keys_run.
  destruct (forallb _ _) eqn:Hall.
  - rewrite decide_True; [done|]. apply dict_keys_recognized.
    apply Is_true_true, forallb_True in Hall.
    eapply Forall_impl; [exact Hall|]. intros k Hk. by apply Is_true_true.
  - rewrite decide_False; [done|]. intros Hsub%dict_keys_recognized.
    apply not_true_iff_false in Hall. apply Hall.
    apply Is_true_true, forallb_True.
    eapply Forall_impl; [exact Hsub|]. intros k Hk. by apply Is_true_true.
Qed.

Lemma expected_set_size : size expected_set = 3%nat.
Proof. reflexivity. Qed.

Lemma id_not_expected : "id" ∉ expected_set.
Proof. by_decide. Qed.

Lemma recognized_size (d : dict) : dom d ⊆ expected_set → (size d ≤ 3)%nat.
Proof.
  intros Hsub. rewrite <-size_dom, <-expected_set_size.
  by apply subseteq_size.
Qed.

Lemma recognized_three (d : dict) :
  dom d ⊆ expected_set → size d = 3%nat → dom d = expected_set.
Proof.
  intros Hsub Hsize. apply set_subseteq_size_eq; [done|].
  by rewrite size_dom, Hsize, expected_set_size.
Qed.

(** ** The assignment loop of PUT and PATCH *)

Lemma lift_some {A} (a : A) cs : lift (Some a) cs = (Ok a, cs).
Proof. done. Qed.

Lemma assign_dict i (d : dict) k v cs (c : dict) :
  cs !! i = Some c → d !! k = Some v →
  assign i (JDict d) (JStr k) cs = (Ok tt, <[i := <[k := v]> c]> cs).
Proof.
  intros Hi Hk. unfold assign. cbn [py_getitem as_number]. rewrite Hk.
  rewrite (bind_ok _ _ cs v cs) by done.
  rewrite (bind_ok _ _ cs c cs) by (by rewrite countries_at_run, Hi).
  done.
Qed.

Lemma assign_not_dict i payload k cs :
  (∀ d, payload ≠ JDict d) →
  assign i payload (JStr k) cs = (Raise Uncaught, cs).
Proof.
  intros Hnd. unfold assign. apply bind_raise.
  destruct payload; try done. by destruct (Hnd d).
Qed.

Lemma assign_loop_dict i (d : dict) ks : ∀ cs (c : dict),
  cs !! i = Some c → Forall (λ k, is_Some (d !! k)) ks →
  ∃ c' : dict,
    assign_loop i (JDict d) (JStr <$> ks) cs = (Ok tt, <[i := c']> cs)
    ∧ ∀ k, c' !! k = if decide (k ∈ ks) then d !! k else c !! k.
Proof.
  induction ks as [|k0 ks IH]; intros cs c Hi Hks.
  - exists c. split; [by rewrite list_insert_id|].
    intros k. rewrite decide_False; [done|]. apply not_elem_of_nil.
  - apply Forall_cons in Hks as [[v0 Hv0] Hks].
    rewrite fmap_cons. cbn [assign_loop].
    rewrite (bind_ok _ _ _ _ _ (assign_dict i d k0 v0 cs c Hi Hv0)).
    destruct (IH (<[i := <[k0 := v0]> c]> cs) (<[k0 := v0]> c)) as (c' & Hrun & Hc');
      [|done|].
    { apply list_lookup_insert_eq. by eapply lookup_lt_Some. }
    exists c'. split; [by rewrite Hrun, list_insert_insert_eq|].
    intros k. rewrite Hc'. destruct (decide (k = k0)) as [->|Hne].
    + rewrite (decide_True (P := k0 ∈ k0 :: ks)) by apply list_elem_of_here.
      case_decide; [done|]. by rewrite lookup_insert_eq.
    + rewrite lookup_insert_ne by done.
      destruct (decide (k ∈ ks)) as [Hin|Hnin].
      * by rewrite decide_True by by apply list_elem_of_further.
      * rewrite decide_False; [done|]. by intros [?|?]%elem_of_cons.
Qed.

Lemma assign_loop_run i payload keys cs (c : dict) :
  cs !! i = Some c → py_iter payload = Some keys → Forall recognized keys →
  assign_loop i payload keys cs = (Ok tt, <[i := payload_dict payload ∪ c]> cs)
  ∨ assign_loop i payload keys cs = (Raise Uncaught, cs).
Proof.
  intros Hi Hiter Hrec.
  assert (∀ p, (∀ d, p ≠ JDict d) → payload_dict p = ∅ →
    assign_loop i p keys cs = (Ok tt, <[i := payload_dict p ∪ c]> cs)
    ∨ assign_loop i p keys cs = (Raise Uncaught, cs)) as Hother.
  { intros p Hnd Hempty. destruct keys as [|key keys].
    - left. rewrite Hempty, (left_id_L ∅ (∪)). by rewrite list_insert_id.
    - right. apply Forall_cons in Hrec as [(k & -> & _)%recognized_inv _].
      cbn [assign_loop]. apply bind_raise. by apply assign_not_dict. }
  destruct payload; try done; try (by apply Hother).
  left. injection Hiter as <-.
  destruct (assign_loop_dict i d (map_to_list d).*1 cs c Hi) as (c' & -> & Hc').
  { apply Forall_forall. intros k. by rewrite elem_of_dict_keys. }
  do 2 f_equal. apply map_eq. intros k. rewrite Hc'. cbn [payload_dict].
  case_decide as Hk.
  - apply elem_of_dict_keys in Hk as [v Hv].
    by rewrite Hv, (lookup_union_Some_l _ _ _ _ Hv).
  - rewrite lookup_union_r; [done|].
    destruct (d !! k) eqn:Hd; [|done].
    destruct Hk. apply elem_of_dict_keys. by rewrite Hd.
Qed.

(** ** The scans of PUT, PATCH and DELETE on any list *)

Lemma update_loop_cases parm_id payload keys idxs cs :
  py_iter payload = Some keys → Forall recognized keys →
  update_loop parm_id payload idxs cs = (Raise (Abort 404), cs)
  ∨ update_loop parm_id payload idxs cs = (Raise Uncaught, cs)
  ∨ ∃ i (c : dict) pre post,
      idxs = pre ++ i :: post ∧ passed parm_id cs pre
      ∧ cs !! i = Some c ∧ matches parm_id c
      ∧ update_loop parm_id payload idxs cs
        = (Ok (Response 200 (JDict (payload_dict payload ∪ c))),
           <[i := payload_dict payload ∪ c]> cs).
Proof.
  intros Hiter Hrec. induction idxs as [|i idxs IH]; [by left|].
  cbn [update_loop].
  destruct (cs !! i) as [c|] eqn:Hi.
  2: { right; left. apply bind_raise. by rewrite countries_at_run, Hi. }
  rewrite (bind_ok _ _ cs c cs) by (by rewrite countries_at_run, Hi).
  destruct (c !! "id") as [v|] eqn:Hv.
  2: { right; left. apply bind_raise. by rewrite id_matches_run, Hv. }
  destruct (py_int parm_id) as [n|] eqn:Hn.
  2: { right; left. apply bind_raise. by rewrite id_matches_run, Hv, Hn. }
  rewrite (bind_ok _ _ cs (py_eq_int v n) cs) by (by rewrite id_matches_run, Hv, Hn).
  destruct (py_eq_int v n) eqn:Heq.
  - rewrite Hiter, (bind_ok _ _ _ _ _ (lift_some keys cs)).
    destruct (assign_loop_run i payload keys cs c Hi Hiter Hrec) as [Hrun|Hrun].
    + right; right. exists i, c, [], idxs. split; [done|].
      split; [constructor|]. split; [done|]. split; [by exists v, n|].
      rewrite (bind_ok _ _ _ _ _ Hrun).
      rewrite (bind_ok _ _ _ (payload_dict payload ∪ c) (<[i := payload_dict payload ∪ c]> cs));
        [done|].
      rewrite countries_at_run, list_lookup_insert_eq; [done|].
      by eapply lookup_lt_Some.
    + right; left. by apply bind_raise.
  - destruct IH as [IH|[IH|(j & cj & pre & post & -> & Hpre & IH)]];
      [by left|by right; left|].
    right; right. exists j, cj, (i :: pre), post. split; [done|].
    split; [|done]. constructor; [|done]. exists c. split; [done|].
    intros (v' & n' & Hv' & Hn' & Heq'). congruence.
Qed.

(** On [range(len(countries))] the indices passed over are the ones below
    the match. *)
Lemma seq_split_first n pre i post :
  seq 0 n = pre ++ i :: post → (i < n)%nat ∧ pre = seq 0 i.
Proof.
  intros Hseq.
  assert (length pre = i ∧ (i < n)%nat) as [Hlen Hlt].
  { pose proof (list_lookup_middle pre post i (length pre) eq_refl) as Hmid.
    rewrite <-Hseq in Hmid. apply lookup_seq in Hmid. lia. }
  split; [done|]. apply list_eq. intros j.
  destruct (decide (j < i)%nat) as [Hj|Hj].
  - rewrite lookup_seq_lt by done.
    pose proof (lookup_seq_lt 0 n j ltac:(lia)) as Hn.
    rewrite Hseq, lookup_app_l in Hn by lia. done.
  - rewrite lookup_seq_ge by lia. apply lookup_ge_None. lia.
Qed.

Lemma delete_loop_cases parm_id idxs cs :
  delete_loop parm_id idxs cs = (Raise (Abort 404), cs)
  ∨ delete_loop parm_id idxs cs = (Raise Uncaught, cs)
  ∨ ∃ i (c : dict), i ∈ idxs ∧ cs !! i = Some c ∧ matches parm_id c
      ∧ delete_loop parm_id idxs cs
        = (Ok (Response 204 (JDict ∅)), delete i cs).
Proof.
  induction idxs as [|i idxs IH]; [by left|].
  cbn [delete_loop].
  destruct (cs !! i) as [c|] eqn:Hi.
  2: { right; left. apply bind_raise. by rewrite countries_at_run, Hi. }
  rewrite (bind_ok _ _ cs c cs) by (by rewrite countries_at_run, Hi).
  destruct (c !! "id") as [v|] eqn:Hv.
  2: { right; left. apply bind_raise. by rewrite id_matches_run, Hv. }
  destruct (py_int parm_id) as [n|] eqn:Hn.
  2: { right; left. apply bind_raise. by rewrite id_matches_run, Hv, Hn. }
  rewrite (bind_ok _ _ cs (py_eq_int v n) cs) by (by rewrite id_matches_run, Hv, Hn).
  destruct (py_eq_int v n) eqn:Heq.
  - right; right. exists i, c. split; [apply list_elem_of_here|].
    split; [done|]. split; [by exists v, n|done].
  - destruct IH as [IH|[IH|(j & cj & Hj & IH)]]; [by left|by right; left|].
    right; right. exists j, cj. split; [by apply list_elem_of_further|done].
Qed.

Lemma get_loop_frame parm_id cs cs0 : (get_loop parm_id cs cs0).2 = cs0.
Proof.
  induction cs as [|c cs IH]; [done|].
  cbn [get_loop]. destruct (id_matches c parm_id cs0) as [[b|e] s] eqn:Hm;
    rewrite id_matches_run in Hm; injection Hm as Hb <-.
  - rewrite (bind_ok _ _ cs0 b cs0) by (by rewrite id_matches_run, Hb).
    by destruct b.
  - by rewrite (bind_raise _ _ cs0 e cs0) by (by rewrite id_matches_run, Hb).
Qed.

(** ** The handlers, unfolded up to their scan *)

Lemma all_recognized_Forall keys :
  all_recognized keys = true → Forall recognized keys.
Proof.
  intros Hall. apply Is_true_true, forallb_True in Hall.
  eapply Forall_impl; [exact Hall|]. intros k Hk. by apply Is_true_true.
Qed.

Lemma put_country_run parm_id req cs :
  put_country parm_id req cs =
  match req with
  | NotJson => (Raise (Abort 415), cs)
  | BadJson => (Raise (Abort 400), cs)
  | Json payload =>
      match py_iter payload, py_len payload, cs !! 0%nat with
      | None, _, _ => (Raise Uncaught, cs)
      | Some keys, len, first =>
          if all_recognized keys then
            match len, first with
            | Some n, Some first =>
                if (n + 1 =? size first)%nat
                then update_loop parm_id payload (seq 0 (length cs)) cs
                else (Raise (Abort 400), cs)
            | _, _ => (Raise Uncaught, cs)
            end
          else (Raise (Abort 422), cs)
      end
  end.
Proof.
  unfold put_country, all_recognized. destruct req as [| |payload]; try done.
  cbn [get_json]. munfold. cbn beta iota.
  destruct (py_iter payload) as [keys|]; [|done].
  rewrite check_keys_run. destruct (forallb _ keys); [|done].
  destruct (py_len payload) as [n|]; [|done].
  destruct (cs !! 0%nat) as [first|]; [|done].
  by destruct (n + 1 =? size first)%nat.
Qed.

Lemma patch_country_run parm_id req cs :
  patch_country parm_id req cs =
  match req with
  | NotJson => (Raise (Abort 415), cs)
  | BadJson => (Raise (Abort 400), cs)
  | Json payload =>
      match py_iter payload, py_len payload, cs !! 0%nat with
      | None, _, _ => (Raise Uncaught, cs)
      | Some keys, len, first =>
          if all_recognized keys then
            match len, first with
            | Some n, Some first =>
                if (size first <? n + 1)%nat
                then (Raise (Abort 400), cs)
                else update_loop parm_id payload (seq 0 (length cs)) cs
            | _, _ => (Raise Uncaught, cs)
            end
          else (Raise (Abort 422), cs)
      end
  end.
Proof.
  unfold patch_country, all_recognized. destruct req as [| |payload]; try done.
  cbn [get_json]. munfold. cbn beta iota.
  destruct (py_iter payload) as [keys|]; [|done].
  rewrite check_keys_run. destruct (forallb _ keys); [|done].
  destruct (py_len payload) as [n|]; [|done].
  destruct (cs !! 0%nat) as [first|]; [|done].
  by destruct (size first <? n + 1)%nat.
Qed.

Lemma all_recognized_dict (d : dict) :
  all_recognized (JStr <$> (map_to_list d).*1) = bool_decide (dom d ⊆ expected_set).
Proof.
  pose proof (check_keys_run (JStr <$> (map_to_list d).*1) []) as Hrun.
  rewrite check_keys_dict in Hrun. unfold all_recognized.
  case_bool_decide; [rewrite decide_True in Hrun by done
                    |rewrite decide_False in Hrun by done];
    by destruct (forallb _ _).
Qed.

Lemma find_next_id_wf cs :
  wf_store cs → cs ≠ [] →
  ∃ m, _find_next_id cs = (Ok (JInt (m + 1)), cs)
       ∧ m ∈ ids cs ∧ ∀ x, x ∈ ids cs → x ≤ m.
Proof.
  intros Hwf Hne. unfold _find_next_id.
  rewrite (bind_ok _ _ cs cs cs) by done.
  rewrite (mapM_id_wf cs Hwf), (bind_ok _ _ _ _ _ (lift_some _ cs)).
  rewrite mapM_as_number_int, (bind_ok _ _ _ _ _ (lift_some _ cs)).
  destruct (ids cs) as [|a l] eqn:Hids.
  { apply (f_equal length) in Hids. rewrite ids_length in Hids by done.
    by destruct cs. }
  rewrite fmap_cons.
  destruct (max_loop_int a l) as (m & -> & Hm & Hle).
  by exists m.
Qed.

Lemma add_country_run req cs :
  add_country req cs =
  match req with
  | NotJson => (Raise (Abort 415), cs)
  | BadJson => (Raise (Abort 400), cs)
  | Json JNull => (Raise (Abort 400), cs)
  | Json (JDict d) =>
      if validate (JDict d) then
        if bool_decide (dom d ⊆ expected_set) then
          match cs !! 0%nat with
          | Some first =>
              if (size d + 1 =? size first)%nat then
                match _find_next_id cs with
                | (Ok next_id, _) =>
                    (Ok (Response 201 (JDict (<["id" := next_id]> d))),
                     cs ++ [<["id" := next_id]> d])
                | (Raise e, _) => (Raise e, cs)
                end
              else (Raise (Abort 400), cs)
          | None => (Raise Uncaught, cs)
          end
        else (Raise (Abort 422), cs)
      else (Raise (AbortError 400), cs)
  | Json _ => (Raise (AbortError 400), cs)
  end.
Proof.
  unfold add_country, expects_json.
  destruct req as [| |payload]; try done.
  destruct payload as [| | | | | |d]; try done.
  cbn [get_json]. munfold. cbn beta iota.
  destruct (validate (JDict d)); cbn beta iota; [|done].
  cbn [py_iter py_len].
  rewrite check_keys_run. fold (all_recognized (JStr <$> (map_to_list d).*1)).
  rewrite all_recognized_dict. case_bool_decide; [|done].
  destruct (cs !! 0%nat) as [first|]; [|done].
  destruct (size d + 1 =? size first)%nat; [|done]. cbn [negb].
  assert ((_find_next_id cs).2 = cs) as Hframe.
  { unfold _find_next_id. munfold. simpl.
    destruct (mapM _ cs); [|done]. simpl.
    destruct (mapM as_number _) as [[|]|]; done. }
  destruct (_find_next_id cs) as [[next_id|e] cs'].
  - simpl in Hframe. by subst.
  - simpl in Hframe. by subst.
Qed.

(** ** The scans on a well-formed list *)

Lemma find_id_cons n c cs :
  find_id n (c :: cs)
  = if decide (has_id n c) then Some (0%nat, c)
    else prod_map S id <$> find_id n cs.
Proof. done. Qed.

Lemma find_id_Some n cs i c :
  find_id n cs = Some (i, c) →
  cs !! i = Some c ∧ int_id c = Some n
  ∧ ∀ j cj, cs !! j = Some cj → (j < i)%nat → int_id cj ≠ Some n.
Proof. intros H. by apply list_find_Some in H. Qed.

Lemma find_id_elem_of n cs : n ∈ ids cs → is_Some (find_id n cs).
Proof.
  intros (c & Hc & Hn)%list_elem_of_omap.
  by apply (list_find_elem_of _ _ c).
Qed.

Lemma find_id_not_elem_of n cs : n ∉ ids cs → find_id n cs = None.
Proof.
  intros Hn. apply list_find_None, Forall_forall. intros c Hc Hid.
  apply Hn, list_elem_of_omap. by exists c.
Qed.

(** With a path parameter that [int] reads as [n], a scan of well-formed
    records compares ints and stops at the first record whose id is [n]. *)
Section wf_scan.
Variables (parm_id : string) (n : Z).
Hypothesis Hn : py_int parm_id = Some n.

Lemma id_matches_wf c cs :
  wf_country c →
  id_matches c parm_id cs = (Ok (bool_decide (has_id n c)), cs).
Proof.
  intros (m & Hid & Hm)%wf_country_id.
  rewrite id_matches_run, Hid, Hn, py_eq_int_JInt.
  do 2 f_equal. apply bool_decide_ext.
  unfold has_id. rewrite Hm. naive_solver.
Qed.

Lemma delete_loop_wf : ∀ suf pre,
  wf_store suf →
  delete_loop parm_id (seq (length pre) (length suf)) (pre ++ suf)
  = match find_id n suf with
    | Some (j, _) =>
        (Ok (Response 204 (JDict ∅)), delete (length pre + j)%nat (pre ++ suf))
    | None => (Raise (Abort 404), pre ++ suf)
    end.
Proof.
  induction suf as [|c suf IH]; intros pre Hwf; [done|].
  apply Forall_cons in Hwf as [Hc Hwf].
  cbn [length seq delete_loop].
  rewrite (bind_ok _ _ _ c (pre ++ c :: suf))
    by (by rewrite countries_at_run, list_lookup_middle).
  rewrite (bind_ok _ _ _ _ _ (id_matches_wf c _ Hc)).
  rewrite find_id_cons. case_bool_decide as Hid.
  - rewrite decide_True by done. by rewrite Nat.add_0_r.
  - rewrite decide_False by done.
    specialize (IH (pre ++ [c]) Hwf).
    rewrite length_app, Nat.add_1_r, <-app_assoc in IH. simpl in IH.
    rewrite IH. destruct (find_id n suf) as [[j cj]|]; [|done].
    simpl. by rewrite Nat.add_succ_r.
Qed.

Lemma get_loop_wf cs0 : ∀ cs,
  wf_store cs →
  get_loop parm_id cs cs0
  = (match find_id n cs with
     | Some (_, c) => Ok (Response 200 (JDict c))
     | None => Raise (Abort 404)
     end, cs0).
Proof.
  induction cs as [|c cs IH]; intros Hwf; [done|].
  apply Forall_cons in Hwf as [Hc Hwf].
  cbn [get_loop].
  rewrite (bind_ok _ _ _ _ _ (id_matches_wf c _ Hc)).
  rewrite find_id_cons. case_bool_decide as Hid.
  - by rewrite decide_True by done.
  - rewrite decide_False by done. rewrite IH by done.
    by destruct (find_id n cs) as [[j cj]|].
Qed.
End wf_scan.

(** ** Ids under update and deletion *)

Lemma ids_unfold a cs :
  ids (a :: cs) = match int_id a with Some n => n :: ids cs | None => ids cs end.
Proof. done. Qed.

Lemma ids_insert cs i (c c' : dict) :
  cs !! i = Some c → int_id c' = int_id c → ids (<[i := c']> cs) = ids cs.
Proof.
  revert i. induction cs as [|a cs IH]; intros [|i] Hi Hid; try done.
  - injection Hi as ->.
    change (<[0%nat := c']> (c :: cs)) with (c' :: cs).
    by rewrite !ids_unfold, Hid.
  - change (<[S i := c']> (a :: cs)) with (a :: <[i := c']> cs).
    by rewrite !ids_unfold, (IH i Hi Hid).
Qed.

Lemma ids_delete_sublist i cs : ids (delete i cs) `sublist_of` ids cs.
Proof.
  revert i. induction cs as [|a cs IH]; intros [|i]; try done.
  - change (delete 0%nat (a :: cs)) with cs. rewrite ids_unfold.
    destruct (int_id a); [by apply sublist_cons|done].
  - change (delete (S i) (a :: cs)) with (a :: delete i cs).
    rewrite !ids_unfold.
    destruct (int_id a); [by apply sublist_skip|apply IH].
Qed.

Lemma ids_app cs cs' : ids (cs ++ cs') = ids cs ++ ids cs'.
Proof. apply omap_app. Qed.

Lemma ids_delete_first n : ∀ cs i c,
  NoDup (ids cs) → find_id n cs = Some (i, c) → n ∉ ids (delete i cs).
Proof.
  induction cs as [|a cs IH]; intros i c Hnd Hfind; [done|].
  rewrite find_id_cons in Hfind. destruct (decide (has_id n a)) as [Ha|Ha].
  - injection Hfind as <- <-. simpl.
    rewrite (ids_cons _ _ _ Ha) in Hnd. by apply NoDup_cons in Hnd as [? _].
  - destruct (find_id n cs) as [[j cj]|] eqn:Hj; [|done].
    injection Hfind as <- <-.
    change (delete (S j) (a :: cs)) with (a :: delete j cs).
    rewrite ids_unfold in Hnd. rewrite ids_unfold.
    destruct (int_id a) as [m|] eqn:Hm.
    + apply NoDup_cons in Hnd as [_ Hnd].
      intros [->|?]%elem_of_cons; [by apply Ha|by apply (IH j cj)].
    + by apply (IH j cj).
Qed.

(** ** The invariant of the store *)

Lemma payload_dict_recognized payload keys :
  py_iter payload = Some keys → all_recognized keys = true →
  dom (payload_dict payload) ⊆ expected_set.
Proof.
  intros Hiter Hall. destruct payload; try (simpl; set_solver).
  injection Hiter as <-. rewrite all_recognized_dict in Hall.
  by apply bool_decide_eq_true in Hall.
Qed.

Lemma int_id_union (p c : dict) :
  dom p ⊆ expected_set → int_id (p ∪ c) = int_id c.
Proof.
  intros Hp. unfold int_id. rewrite lookup_union_r; [done|].
  apply not_elem_of_dom. intros Hid%Hp. by apply id_not_expected.
Qed.

Lemma wf_country_union (p c : dict) :
  dom p ⊆ expected_set → wf_country c → wf_country (p ∪ c).
Proof.
  intros Hp [Hdom Hid]. split.
  - rewrite dom_union_L, Hdom. unfold country_fields. set_solver.
  - by rewrite int_id_union.
Qed.

Lemma store_inv_insert cs i (p c : dict) :
  dom p ⊆ expected_set → cs !! i = Some c →
  store_inv cs → store_inv (<[i := p ∪ c]> cs).
Proof.
  intros Hp Hi [Hwf Hnd]. split.
  - apply Forall_insert; [done|]. apply wf_country_union; [done|].
    by eapply wf_store_lookup.
  - rewrite (ids_insert cs i c); [done..|]. by apply int_id_union.
Qed.

Lemma store_inv_delete cs i : store_inv cs → store_inv (delete i cs).
Proof.
  intros [Hwf Hnd]. split; [by apply Forall_delete|].
  eapply sublist_NoDup; [exact Hnd|apply ids_delete_sublist].
Qed.

Lemma wf_country_new (d : dict) m :
  dom d = expected_set → wf_country (<["id" := JInt m]> d).
Proof.
  intros Hd. split.
  - by rewrite dom_insert_L, Hd.
  - unfold int_id. by rewrite lookup_insert_eq.
Qed.

Lemma store_inv_append cs (d : dict) m :
  dom d = expected_set → (∀ x, x ∈ ids cs → x ≤ m) →
  store_inv cs → store_inv (cs ++ [<["id" := JInt (m + 1)]> d]).
Proof.
  intros Hd Hmax [Hwf Hnd]. split.
  - apply Forall_app. split; [done|].
    apply Forall_singleton. by apply wf_country_new.
  - rewrite ids_app. apply NoDup_app. split; [done|]. split.
    + intros x Hx%Hmax. rewrite ids_unfold. unfold int_id.
      rewrite lookup_insert_eq.
      intros ->%list_elem_of_singleton. lia.
    + rewrite ids_unfold. unfold int_id. rewrite lookup_insert_eq.
      apply NoDup_singleton.
Qed.

(** ** Every handler keeps the invariant *)

Lemma update_loop_inv parm_id payload keys idxs cs :
  py_iter payload = Some keys → all_recognized keys = true →
  store_inv cs → store_inv (update_loop parm_id payload idxs cs).2.
Proof.
  intros Hiter Hall Hinv.
  destruct (update_loop_cases parm_id payload keys idxs cs Hiter
              (all_recognized_Forall _ Hall))
    as [->|[->|(i & c & pre & post & _ & _ & Hi & _ & ->)]]; [done..|].
  apply store_inv_insert; [|done..].
  by eapply payload_dict_recognized.
Qed.

Lemma put_country_inv parm_id req cs :
  store_inv cs → store_inv (put_country parm_id req cs).2.
Proof.
  intros Hinv. rewrite put_country_run. destruct req as [| |payload]; [done..|].
  destruct (py_iter payload) as [keys|] eqn:Hiter; [|done].
  destruct (all_recognized keys) eqn:Hall; [|done].
  destruct (py_len payload) as [n|]; [|done].
  destruct (cs !! 0%nat) as [first|]; [|done].
  destruct (n + 1 =? size first)%nat; [|done].
  by eapply update_loop_inv.
Qed.

Lemma patch_country_inv parm_id req cs :
  store_inv cs → store_inv (patch_country parm_id req cs).2.
Proof.
  intros Hinv. rewrite patch_country_run. destruct req as [| |payload]; [done..|].
  destruct (py_iter payload) as [keys|] eqn:Hiter; [|done].
  destruct (all_recognized keys) eqn:Hall; [|done].
  destruct (py_len payload) as [n|]; [|done].
  destruct (cs !! 0%nat) as [first|]; [|done].
  destruct (size first <? n + 1)%nat; [done|].
  by eapply update_loop_inv.
Qed.

Lemma delete_country_inv parm_id cs :
  store_inv cs → store_inv (delete_country parm_id cs).2.
Proof.
  intros Hinv. unfold delete_country. rewrite (bind_ok _ _ cs cs cs) by done.
  destruct (delete_loop_cases parm_id (seq 0 (length cs)) cs)
    as [->|[->|(i & c & _ & _ & _ & ->)]]; [done..|].
  by apply store_inv_delete.
Qed.

Lemma payload_complete (d first : dict) :
  wf_country first → dom d ⊆ expected_set →
  (size d + 1 =? size first)%nat = true → dom d = expected_set.
Proof.
  intros Hfirst Hsub Hsize%Nat.eqb_eq.
  rewrite (wf_country_size first Hfirst) in Hsize.
  apply recognized_three; [done|lia].
Qed.

Lemma add_country_created cs (d first : dict) :
  wf_store cs → cs !! 0%nat = Some first →
  validate (JDict d) = true → dom d ⊆ expected_set →
  (size d + 1 =? size first)%nat = true →
  ∃ m, m ∈ ids cs ∧ (∀ x, x ∈ ids cs → x ≤ m)
       ∧ add_country (Json (JDict d)) cs
         = (Ok (Response 201 (JDict (<["id" := JInt (m + 1)]> d))),
            cs ++ [<["id" := JInt (m + 1)]> d]).
Proof.
  intros Hwf Hfirst Hvalid Hsub Hsize.
  destruct (find_next_id_wf cs Hwf) as (m & Hnext & Hm & Hle).
  { by intros ->. }
  exists m. split; [done|]. split; [done|].
  rewrite add_country_run, Hvalid, bool_decide_true, Hfirst, Hsize by done.
  by rewrite Hnext.
Qed.

Lemma add_country_inv req cs :
  store_inv cs → store_inv (add_country req cs).2.
Proof.
  intros Hinv. pose proof Hinv as [Hwf _].
  destruct (add_country req cs) as [r cs'] eqn:Hrun.
  rewrite add_country_run in Hrun.
  destruct req as [| |payload]; [by injection Hrun as _ <-..|].
  destruct payload; try by injection Hrun as _ <-.
  destruct (validate (JDict d)) eqn:Hvalid; [|by injection Hrun as _ <-].
  case_bool_decide as Hsub; [|by injection Hrun as _ <-].
  destruct (cs !! 0%nat) as [first|] eqn:Hfirst; [|by injection Hrun as _ <-].
  destruct (size d + 1 =? size first)%nat eqn:Hsize; [|by injection Hrun as _ <-].
  destruct (add_country_created cs d first) as (m & _ & Hle & Hadd); [done..|].
  rewrite add_country_run, Hvalid, bool_decide_true, Hfirst, Hsize in Hadd by done.
  rewrite Hadd in Hrun. injection Hrun as _ <-.
  apply store_inv_append; [|done..].
  eapply payload_complete; [|done..]. by eapply wf_store_lookup.
Qed.

Lemma get_country_run cs :
  get_country cs
  = (match cs !! 1%nat with
     | Some c => Ok (Response 200 (JDict c))
     | None => Raise Uncaught
     end, cs).
Proof. unfold get_country. munfold. cbn beta iota. by destruct (cs !! 1%nat). Qed.

Lemma dispatch_inv c cs : store_inv cs → store_inv (dispatch c cs).2.
Proof.
  intros Hinv. destruct c; cbn [dispatch].
  - done.
  - by apply add_country_inv.
  - by rewrite get_country_run.
  - unfold get_country_by_id. rewrite (bind_ok _ _ cs cs cs) by done.
    by rewrite get_loop_frame.
  - by apply put_country_inv.
  - by apply patch_country_inv.
  - by apply delete_country_inv.
Qed.

Lemma reachable_inv cs : reachable cs → store_inv cs.
Proof.
  induction 1 as [|c cs _ IH]; [apply countries_inv|by apply dispatch_inv].
Qed.

(** ** Aborts *)

Lemma find_next_id_raise cs e cs' :
  _find_next_id cs = (Raise e, cs') → e = Uncaught.
Proof.
  unfold _find_next_id. munfold. cbn beta iota.
  destruct (mapM _ cs) as [vs|]; cbn beta iota; [|congruence].
  destruct (mapM as_number vs) as [[|a l]|]; congruence.
Qed.

Lemma get_loop_abort parm_id cs cs0 code :
  (get_loop parm_id cs cs0).1 = Raise (Abort code) → code = 404.
Proof.
  induction cs as [|c cs IH]; [by intros [= <-]|].
  cbn [get_loop]. unfold mbind, M_bind. rewrite id_matches_run.
  destruct (c !! "id") as [v|]; [|done].
  destruct (py_int parm_id) as [n|]; [|done].
  by destruct (py_eq_int v n).
Qed.

Lemma update_loop_abort parm_id payload keys idxs cs code cs' :
  py_iter payload = Some keys → all_recognized keys = true →
  update_loop parm_id payload idxs cs = (Raise (Abort code), cs') →
  cs' = cs ∧ code = 404.
Proof.
  intros Hiter Hall Hrun.
  destruct (update_loop_cases parm_id payload keys idxs cs Hiter
              (all_recognized_Forall _ Hall))
    as [H|[H|(i & c & pre & post & _ & _ & _ & _ & H)]];
    rewrite H in Hrun; by simplify_eq.
Qed.

Lemma put_country_abort parm_id req cs code cs' :
  put_country parm_id req cs = (Raise (Abort code), cs') →
  cs' = cs ∧ code ∈ abort_codes.
Proof.
  rewrite put_country_run. unfold abort_codes.
  destruct req as [| |payload]; [intros [= <- <-]; set_solver..|].
  destruct (py_iter payload) as [keys|] eqn:Hiter; [|done].
  destruct (all_recognized keys) eqn:Hall; [|intros [= <- <-]; set_solver].
  destruct (py_len payload) as [n|]; [|done].
  destruct (cs !! 0%nat) as [first|]; [|done].
  destruct (n + 1 =? size first)%nat; [|intros [= <- <-]; set_solver].
  intros [-> ->]%(update_loop_abort _ _ keys); [set_solver|done..].
Qed.

Lemma patch_country_abort parm_id req cs code cs' :
  patch_country parm_id req cs = (Raise (Abort code), cs') →
  cs' = cs ∧ code ∈ abort_codes.
Proof.
  rewrite patch_country_run. unfold abort_codes.
  destruct req as [| |payload]; [intros [= <- <-]; set_solver..|].
  destruct (py_iter payload) as [keys|] eqn:Hiter; [|done].
  destruct (all_recognized keys) eqn:Hall; [|intros [= <- <-]; set_solver].
  destruct (py_len payload) as [n|]; [|done].
  destruct (cs !! 0%nat) as [first|]; [|done].
  destruct (size first <? n + 1)%nat; [intros [= <- <-]; set_solver|].
  intros [-> ->]%(update_loop_abort _ _ keys); [set_solver|done..].
Qed.

Lemma delete_country_abort parm_id cs code cs' :
  delete_country parm_id cs = (Raise (Abort code), cs') →
  cs' = cs ∧ code ∈ abort_codes.
Proof.
  unfold delete_country, abort_codes. rewrite (bind_ok _ _ cs cs cs) by done.
  destruct (delete_loop_cases parm_id (seq 0 (length cs)) cs)
    as [->|[->|(i & c & _ & _ & _ & ->)]]; [|done..].
  intros [= <- <-]. set_solver.
Qed.

Lemma add_country_abort req cs code cs' :
  add_country req cs = (Raise (Abort code), cs') →
  cs' = cs ∧ code ∈ abort_codes.
Proof.
  rewrite add_country_run. unfold abort_codes.
  destruct req as [| |payload]; [intros [= <- <-]; set_solver..|].
  destruct payload; try (intros [= <- <-]; set_solver).
  destruct (validate (JDict d)); [|intros [= <- <-]; set_solver].
  case_bool_decide; [|intros [= <- <-]; set_solver].
  destruct (cs !! 0%nat) as [first|]; [|done].
  destruct (size d + 1 =? size first)%nat; [|intros [= <- <-]; set_solver].
  destruct (_find_next_id cs) as [[next_id|e] s] eqn:Hnext; [done|].
  apply find_next_id_raise in Hnext as ->. done.
Qed.

Lemma get_country_by_id_abort parm_id cs code cs' :
  get_country_by_id parm_id cs = (Raise (Abort code), cs') →
  cs' = cs ∧ code ∈ abort_codes.
Proof.
  unfold get_country_by_id, abort_codes. rewrite (bind_ok _ _ cs cs cs) by done.
  intros Hrun. split.
  - by rewrite <-(get_loop_frame parm_id cs cs), Hrun.
  - rewrite (get_loop_abort parm_id cs cs code); [set_solver|]. by rewrite Hrun.
Qed.

(** ** Distinct keys *)

Lemma string_length_list s : String.length s = length (list_ascii_of_string s).
Proof. induction s as [|a s IH]; [done|]. simpl. by rewrite IH. Qed.

Lemma py_len_iter payload keys :
  py_iter payload = Some keys → py_len payload = Some (length keys).
Proof.
  destruct payload; try done; intros [= <-]; cbn [py_len]; f_equal.
  - by rewrite length_fmap, string_length_list.
  - by rewrite !length_fmap, length_map_to_list.
Qed.

Lemma three_distinct_recognized keys :
  NoDup keys → Forall recognized keys → length keys = 3%nat →
  keys ≡ₚ JStr <$> expected_payload_attributes.
Proof.
  intros Hnd Hrec Hlen. apply submseteq_length_Permutation.
  - apply NoDup_submseteq; [done|]. intros key Hkey.
    rewrite Forall_forall in Hrec.
    destruct (recognized_inv key (Hrec key Hkey)) as (k & -> & Hk).
    apply list_elem_of_fmap_2. by apply elem_of_list_to_set in Hk.
  - rewrite Hlen. simpl. lia.
Qed.

(** * The claims *)

(** C5.  Every handler is atomic on error: when a request ends in an
    [abort] (the codes are 400, 404, 415 and 422, all 4xx), the list of
    countries after the request is the list before it. *)
Theorem abort_leaves_store_unchanged c cs code :
  (dispatch c cs).1 = Raise (Abort code) →
  (dispatch c cs).2 = cs ∧ code ∈ abort_codes ∧ 400 ≤ code < 500.
Proof.
  intros Hrun.
  assert ((dispatch c cs).2 = cs ∧ code ∈ abort_codes) as [Hcs Hcode].
  { destruct (dispatch c cs) as [r cs'] eqn:Hd. simpl in Hrun. subst r.
    destruct c; cbn [dispatch] in Hd.
    - done.
    - by eapply add_country_abort.
    - rewrite get_country_run in Hd. by destruct (cs !! 1%nat).
    - by eapply get_country_by_id_abort.
    - by eapply put_country_abort.
    - by eapply patch_country_abort.
    - by eapply delete_country_abort. }
  split; [done|]. split; [done|].
  unfold abort_codes in Hcode.
  repeat (apply elem_of_cons in Hcode as [->|Hcode]; [lia|]).
  by apply elem_of_nil in Hcode.
Qed.

(** PUT on an id that is not in the list: the 404 comes after the whole
    scan, with nothing written. *)
Lemma abort_leaves_store_unchanged_witness :
  (dispatch (PUT_countries_id "7" (Json (JDict germany))) countries).1
    = Raise (Abort 404)
  ∧ (dispatch (PUT_countries_id "7" (Json (JDict germany))) countries).2
    = countries
  ∧ 404 ∈ abort_codes ∧ 400 ≤ 404 < 500.
Proof.
  split; [reflexivity|].
  apply (abort_leaves_store_unchanged
           (PUT_countries_id "7" (Json (JDict germany))) countries 404).
  reflexivity.
Defined.

(** C7.  PATCH with a JSON object that has a key outside [name], [capital]
    and [area] is answered 422, whatever its other fields, whatever the list
    of countries holds, and whether or not the id exists; nothing is
    written. *)
Theorem patch_unknown_key_422 parm_id (d : dict) k cs :
  k ∈ dom d → k ∉ expected_set →
  patch_country parm_id (Json (JDict d)) cs = (Raise (Abort 422), cs)
  ∧ http_status (patch_country parm_id (Json (JDict d)) cs).1 = 422.
Proof.
  intros Hk Hunknown.
  assert (patch_country parm_id (Json (JDict d)) cs = (Raise (Abort 422), cs))
    as ->; [|done].
  rewrite patch_country_run. cbn [py_iter].
  rewrite all_recognized_dict, bool_decide_false; [done|].
  intros Hsub. by apply Hunknown, Hsub.
Qed.

Lemma patch_unknown_key_422_witness :
  let d : dict := {[ "name" := JStr "Siam"; "population" := JInt 66 ]} in
  ("population" ∈ dom d ∧ "population" ∉ expected_set)
  ∧ patch_country "1" (Json (JDict d)) countries = (Raise (Abort 422), countries)
  ∧ http_status (patch_country "1" (Json (JDict d)) countries).1 = 422.
Proof.
  intros d. split; [split; by_decide|].
  apply (patch_unknown_key_422 "1" d "population" countries); by_decide.
Defined.

(** C9.  GET /country takes no parameter; on a list with at least two
    elements it answers 200 with the element at index 1 and leaves the list
    as it is. *)
Theorem get_country_second cs :
  (2 ≤ length cs)%nat →
  ∃ c, cs !! 1%nat = Some c
       ∧ get_country cs = (Ok (Response 200 (JDict c)), cs)
       ∧ http_status (get_country cs).1 = 200.
Proof.
  intros Hlen. destruct (lookup_lt_is_Some_2 cs 1) as [c Hc]; [lia|].
  exists c. split; [done|]. by rewrite get_country_run, Hc.
Qed.

Lemma get_country_second_witness :
  (2 ≤ length countries)%nat
  ∧ ∃ c, countries !! 1%nat = Some c
         ∧ get_country countries = (Ok (Response 200 (JDict c)), countries)
         ∧ http_status (get_country countries).1 = 200.
Proof.
  split; [simpl; lia|].
  apply (get_country_second countries). simpl; lia.
Defined.

(** C6, as amended.  On a non-empty list of well-formed records, PUT with a
    JSON object of fewer than three keys, all of them among [name],
    [capital] and [area], is answered 400, whether or not the id exists (the
    path parameter is not even read); nothing is written. *)
Theorem put_short_payload_400 parm_id (d : dict) cs :
  wf_store cs → cs ≠ [] →
  dom d ⊆ expected_set → (size d < 3)%nat →
  put_country parm_id (Json (JDict d)) cs = (Raise (Abort 400), cs)
  ∧ http_status (put_country parm_id (Json (JDict d)) cs).1 = 400.
Proof.
  intros Hwf Hne Hsub Hsize.
  assert (put_country parm_id (Json (JDict d)) cs = (Raise (Abort 400), cs))
    as ->; [|done].
  destruct cs as [|first cs]; [done|].
  apply Forall_cons in Hwf as [Hfirst%wf_country_size _].
  rewrite put_country_run. cbn [py_iter py_len].
  rewrite all_recognized_dict, bool_decide_true by done.
  change ((first :: cs) !! 0%nat) with (Some first). cbn beta iota.
  rewrite Hfirst. destruct (Nat.eqb_spec (size d + 1) 4); [lia|done].
Qed.

Lemma put_short_payload_400_witness :
  let d : dict := {[ "name" := JStr "Siam" ]} in
  (wf_store countries ∧ countries ≠ [] ∧ dom d ⊆ expected_set ∧ (size d < 3)%nat)
  ∧ put_country "9" (Json (JDict d)) countries = (Raise (Abort 400), countries)
  ∧ http_status (put_country "9" (Json (JDict d)) countries).1 = 400.
Proof.
  intros d.
  assert (wf_store countries ∧ countries ≠ [] ∧ dom d ⊆ expected_set
          ∧ (size d < 3)%nat) as Hyp.
  { split; [apply countries_inv|]. split; [by unfold countries|].
    split; by_decide. }
  split; [exact Hyp|].
  destruct Hyp as (Hwf & Hne & Hsub & Hsize).
  exact (put_short_payload_400 "9" d countries Hwf Hne Hsub Hsize).
Defined.

(** C6 as the spec has it fails once every record has been deleted:
    [countries[0]] raises [IndexError] before the count is compared, and the
    answer is 500. *)
Lemma put_short_payload_empty_store_500 :
  let d : dict := {[ "name" := JStr "Siam" ]} in
  reachable []
  ∧ dom d ⊆ expected_set ∧ (size d < 3)%nat
  ∧ put_country "1" (Json (JDict d)) [] = (Raise Uncaught, [])
  ∧ http_status (put_country "1" (Json (JDict d)) []).1 = 500
  ∧ http_status (put_country "1" (Json (JDict d)) []).1 ≠ 400.
Proof.
  intros d. split.
  - pose proof (reachable_step (DELETE_countries_id "3") _
                 (reachable_step (DELETE_countries_id "2") _
                   (reachable_step (DELETE_countries_id "1") _ reachable_init)))
      as Hreach.
    exact Hreach.
  - split; [by_decide|]. split; [by_decide|].
    split; [reflexivity|]. split; [reflexivity|]. by_decide.
Qed.

(** C10.  In PATCH the 400 branch cannot be taken by a JSON object: one
    that passes the key check has at most three keys, so
    [len(payload) + 1 > 4] is false, and on every list of well-formed
    records PATCH of a JSON object is never answered 400. *)
Theorem patch_object_never_400 parm_id (d : dict) cs :
  (check_keys (JStr <$> (map_to_list d).*1) cs = (Ok tt, cs) →
   (size d ≤ 3)%nat ∧ (4 <? size d + 1)%nat = false)
  ∧ (wf_store cs →
     (patch_country parm_id (Json (JDict d)) cs).1 ≠ Raise (Abort 400)
     ∧ http_status (patch_country parm_id (Json (JDict d)) cs).1 ≠ 400).
Proof.
  split.
  - rewrite check_keys_dict. case_decide as Hsub; [|done]. intros _.
    apply recognized_size in Hsub. split; [done|].
    apply Nat.ltb_ge. lia.
  - intros Hwf.
    destruct (patch_country parm_id (Json (JDict d)) cs) as [r cs'] eqn:Hrun.
    assert (∀ code, r = Raise (Abort code) → code ≠ 400) as Hcode.
    { intros code ->. rewrite patch_country_run in Hrun.
      cbn [py_iter py_len] in Hrun. rewrite all_recognized_dict in Hrun.
      case_bool_decide as Hsub; [|by simplify_eq].
      destruct (cs !! 0%nat) as [first|] eqn:Hfirst; [|done].
      apply (wf_store_lookup _ _ _ Hwf), wf_country_size in Hfirst.
      rewrite Hfirst in Hrun. apply recognized_size in Hsub as Hle.
      destruct (Nat.ltb_spec 4 (size d + 1)); [lia|].
      eapply (update_loop_abort _ _ (JStr <$> (map_to_list d).*1)) in Hrun as [_ ->];
        [done|done|].
      rewrite all_recognized_dict. by apply bool_decide_eq_true. }
    simpl. split; [intros ->; by apply (Hcode 400)|].
    destruct r as [resp|[code|code|]]; simpl; [|by apply Hcode|done..].
    rewrite patch_country_run in Hrun.
    cbn [py_iter py_len] in Hrun. rewrite all_recognized_dict in Hrun.
    case_bool_decide as Hsub; [|done].
    destruct (cs !! 0%nat) as [first|]; [|done].
    destruct (size first <? size d + 1)%nat; [done|].
    destruct (update_loop_cases parm_id (JDict d) (JStr <$> (map_to_list d).*1)
                (seq 0 (length cs)) cs eq_refl)
      as [H|[H|(i & c & pre & post & _ & _ & _ & _ & H)]];
      [by apply dict_keys_recognized|..]; rewrite H in Hrun; by simplify_eq.
Qed.

Lemma patch_object_never_400_witness :
  let d : dict := {[ "capital" := JStr "Krung Thep" ]} in
  check_keys (JStr <$> (map_to_list d).*1) countries = (Ok tt, countries)
  ∧ wf_store countries
  ∧ ((size d ≤ 3)%nat ∧ (4 <? size d + 1)%nat = false)
  ∧ (patch_country "1" (Json (JDict d)) countries).1 ≠ Raise (Abort 400)
  ∧ http_status (patch_country "1" (Json (JDict d)) countries).1 ≠ 400.
Proof.
  intros d.
  assert (check_keys (JStr <$> (map_to_list d).*1) countries = (Ok tt, countries))
    as Hkeys by reflexivity.
  pose proof countries_inv as [Hwf _].
  split; [exact Hkeys|]. split; [exact Hwf|].
  destruct (patch_object_never_400 "1" d countries) as [Hsize Hstatus].
  split; [exact (Hsize Hkeys)|exact (Hstatus Hwf)].
Defined.

(** C1.  On a non-empty list of well-formed records, POST of a JSON object
    that satisfies the schema and has exactly the keys [name], [capital] and
    [area] is answered 201; the object returned is the payload with [id] set
    to one more than the greatest id of the list at that moment, and it is
    appended at the end, so that GET /countries then lists it last.  From
    the initial three countries, POST of Germany returns id 4 and the list
    has four records ending with Germany. *)
Theorem post_valid_payload_creates :
  (∀ cs (d : dict),
     wf_store cs → cs ≠ [] →
     validate (JDict d) = true → dom d = expected_set →
     ∃ m, let created := <["id" := JInt (m + 1)]> d in
       m ∈ ids cs ∧ (∀ x, x ∈ ids cs → x ≤ m)
       ∧ add_country (Json (JDict d)) cs
         = (Ok (Response 201 (JDict created)), cs ++ [created])
       ∧ get_countries (cs ++ [created])
         = (Ok (Response 200 (JList (JDict <$> cs ++ [created]))),
            cs ++ [created])
       ∧ last (cs ++ [created]) = Some created)
  ∧ (let created := <["id" := JInt 4]> germany in
     add_country (Json (JDict germany)) countries
       = (Ok (Response 201 (JDict created)), countries ++ [created])
     ∧ get_countries (countries ++ [created])
       = (Ok (Response 200 (JList (JDict <$> countries ++ [created]))),
          countries ++ [created])
     ∧ length (countries ++ [created]) = 4%nat
     ∧ last (countries ++ [created]) = Some created).
Proof.
  split.
  - intros cs d Hwf Hne Hvalid Hdom.
    destruct cs as [|first cs]; [done|].
    pose proof Hwf as [Hfirst _]%Forall_cons.
    destruct (add_country_created (first :: cs) d first) as (m & Hm & Hle & Hadd);
      [done|done|done|by rewrite Hdom| |].
    { rewrite (wf_country_size first Hfirst), <-size_dom, Hdom.
      by rewrite expected_set_size. }
    exists m. cbn zeta. split; [done|]. split; [done|]. split; [done|].
    split; [done|]. apply last_snoc.
  - cbn zeta. split; [reflexivity|]. split; [reflexivity|].
    split; [reflexivity|]. apply last_snoc.
Qed.

Lemma post_valid_payload_creates_witness :
  (wf_store countries ∧ countries ≠ []
   ∧ validate (JDict germany) = true ∧ dom germany = expected_set)
  ∧ ∃ m, let created := <["id" := JInt (m + 1)]> germany in
      m ∈ ids countries ∧ (∀ x, x ∈ ids countries → x ≤ m)
      ∧ add_country (Json (JDict germany)) countries
        = (Ok (Response 201 (JDict created)), countries ++ [created])
      ∧ get_countries (countries ++ [created])
        = (Ok (Response 200 (JList (JDict <$> countries ++ [created]))),
           countries ++ [created])
      ∧ last (countries ++ [created]) = Some created.
Proof.
  assert (wf_store countries ∧ countries ≠ []
          ∧ validate (JDict germany) = true ∧ dom germany = expected_set) as Hyp.
  { split; [apply countries_inv|]. split; [by unfold countries|].
    split; reflexivity. }
  split; [exact Hyp|].
  destruct Hyp as (Hwf & Hne & Hvalid & Hdom).
  exact (proj1 post_valid_payload_creates countries germany Hwf Hne Hvalid Hdom).
Defined.

(** C4.  With unique ids, DELETE of an id that is in the list removes the
    first record that has it (the only one) and no other, and answers 204
    with the empty object; a GET of that id afterwards is answered 404.  GET
    of an id that is not in the list is answered 404. *)
Theorem delete_removes_one_then_get_404 parm_id n cs :
  store_inv cs → py_int parm_id = Some n →
  (n ∈ ids cs →
   ∃ i c,
     cs !! i = Some c ∧ int_id c = Some n
     ∧ (∀ j cj, cs !! j = Some cj → (j < i)%nat → int_id cj ≠ Some n)
     ∧ delete_country parm_id cs
       = (Ok (Response 204 (JDict ∅)), take i cs ++ drop (S i) cs)
     ∧ length (take i cs ++ drop (S i) cs) = (length cs - 1)%nat
     ∧ get_country_by_id parm_id (take i cs ++ drop (S i) cs)
       = (Raise (Abort 404), take i cs ++ drop (S i) cs))
  ∧ (n ∉ ids cs →
     get_country_by_id parm_id cs = (Raise (Abort 404), cs)
     ∧ http_status (get_country_by_id parm_id cs).1 = 404).
Proof.
  intros [Hwf Hnd] Hn. split.
  - intros [[i c] Hfind]%find_id_elem_of.
    pose proof (find_id_Some _ _ _ _ Hfind) as (Hi & Hid & Hfirst).
    exists i, c. split; [done|]. split; [done|]. split; [done|].
    rewrite <-delete_take_drop.
    split; [|split].
    + unfold delete_country. rewrite (bind_ok _ _ cs cs cs) by done.
      pose proof (delete_loop_wf parm_id n Hn cs [] Hwf) as Hrun.
      simpl in Hrun. by rewrite Hrun, Hfind.
    + rewrite length_delete; [done|by eexists].
    + unfold get_country_by_id.
      rewrite (bind_ok _ _ (delete i cs) (delete i cs) (delete i cs)) by done.
      rewrite (get_loop_wf parm_id n Hn); [|by apply Forall_delete].
      rewrite find_id_not_elem_of; [done|]. by eapply ids_delete_first.
  - intros Hnot.
    assert (get_country_by_id parm_id cs = (Raise (Abort 404), cs)) as ->; [|done].
    unfold get_country_by_id. rewrite (bind_ok _ _ cs cs cs) by done.
    by rewrite (get_loop_wf parm_id n Hn), find_id_not_elem_of.
Qed.

Lemma delete_removes_one_then_get_404_witness :
  (store_inv countries ∧ py_int "2" = Some 2 ∧ 2 ∈ ids countries)
  ∧ ∃ i c,
     countries !! i = Some c ∧ int_id c = Some 2
     ∧ (∀ j cj, countries !! j = Some cj → (j < i)%nat → int_id cj ≠ Some 2)
     ∧ delete_country "2" countries
       = (Ok (Response 204 (JDict ∅)), take i countries ++ drop (S i) countries)
     ∧ length (take i countries ++ drop (S i) countries)
       = (length countries - 1)%nat
     ∧ get_country_by_id "2" (take i countries ++ drop (S i) countries)
       = (Raise (Abort 404), take i countries ++ drop (S i) countries).
Proof.
  assert (py_int "2" = Some 2) as Hn by reflexivity.
  assert (2 ∈ ids countries) as Hin by by_decide.
  split; [split; [apply countries_inv|done]|].
  exact (proj1 (delete_removes_one_then_get_404 "2" 2 countries
                  countries_inv Hn) Hin).
Defined.

(** ** What a successful PUT or PATCH writes *)

Lemma update_loop_ok parm_id payload keys cs resp cs' :
  py_iter payload = Some keys → all_recognized keys = true →
  update_loop parm_id payload (seq 0 (length cs)) cs = (Ok resp, cs') →
  ∃ i (c : dict),
    cs !! i = Some c ∧ matches parm_id c
    ∧ (∀ j cj, cs !! j = Some cj → (j < i)%nat → ¬ matches parm_id cj)
    ∧ (payload_dict payload ∪ c) !! "id" = c !! "id"
    ∧ resp = Response 200 (JDict (payload_dict payload ∪ c))
    ∧ cs' = <[i := payload_dict payload ∪ c]> cs.
Proof.
  intros Hiter Hall Hrun.
  destruct (update_loop_cases parm_id payload keys (seq 0 (length cs)) cs Hiter
              (all_recognized_Forall _ Hall))
    as [H|[H|(i & c & pre & post & Hseq & Hpre & Hi & Hmatch & H)]];
    rewrite H in Hrun; [done..|]. injection Hrun as <- <-.
  apply seq_split_first in Hseq as [_ ->].
  exists i, c. split; [done|]. split; [done|]. split; [|split; [|done]].
  - intros j cj Hj Hlt.
    unfold passed in Hpre. rewrite Forall_forall in Hpre.
    destruct (Hpre j) as (cj' & Hj' & Hno); [apply elem_of_seq; lia|].
    by simplify_eq.
  - apply lookup_union_r, not_elem_of_dom. intros Hid.
    by apply id_not_expected, (payload_dict_recognized payload keys).
Qed.

(** C8.  A PUT or a PATCH that returns does so with 200; it has written to
    one record only, the first whose id is equal to [int(parm_id)]: that
    record keeps its [id], every other record is the same object as before,
    and the list has the same length. *)
Theorem update_keeps_id_and_others parm_id req cs resp cs' :
  put_country parm_id req cs = (Ok resp, cs')
  ∨ patch_country parm_id req cs = (Ok resp, cs') →
  status resp = 200
  ∧ length cs' = length cs
  ∧ ∃ i (c c' : dict),
      cs !! i = Some c ∧ matches parm_id c
      ∧ (∀ j cj, cs !! j = Some cj → (j < i)%nat → ¬ matches parm_id cj)
      ∧ cs' !! i = Some c' ∧ body resp = JDict c'
      ∧ c' !! "id" = c !! "id"
      ∧ ∀ j, j ≠ i → cs' !! j = cs !! j.
Proof.
  intros Hrun.
  assert (∃ payload keys, py_iter payload = Some keys
            ∧ all_recognized keys = true
            ∧ update_loop parm_id payload (seq 0 (length cs)) cs = (Ok resp, cs'))
    as (payload & keys & Hiter & Hall & Hloop).
  { destruct Hrun as [Hrun|Hrun];
      [rewrite put_country_run in Hrun|rewrite patch_country_run in Hrun];
      (destruct req as [| |payload]; [done..|];
       destruct (py_iter payload) as [keys|] eqn:Hiter; [|done];
       destruct (all_recognized keys) eqn:Hall; [|done];
       destruct (py_len payload) as [n|]; [|done];
       destruct (cs !! 0%nat) as [first|]; [|done]).
    - destruct (n + 1 =? size first)%nat; [|done]. by exists payload, keys.
    - destruct (size first <? n + 1)%nat; [done|]. by exists payload, keys. }
  destruct (update_loop_ok _ _ _ _ _ _ Hiter Hall Hloop)
    as (i & c & Hi & Hmatch & Hfirst & Hid & -> & ->).
  split; [done|]. split; [apply length_insert|].
  exists i, c, (payload_dict payload ∪ c).
  split; [done|]. split; [done|]. split; [done|].
  split; [apply list_lookup_insert_eq; by eapply lookup_lt_Some|].
  split; [done|]. split; [done|].
  intros j Hj. by apply list_lookup_insert_ne.
Qed.

Lemma update_keeps_id_and_others_witness :
  let c : dict := default ∅ (countries !! 1%nat) in
  let resp := Response 200 (JDict (germany ∪ c)) in
  let cs' := <[1%nat := germany ∪ c]> countries in
  (put_country "2" (Json (JDict germany)) countries = (Ok resp, cs')
   ∨ patch_country "2" (Json (JDict germany)) countries = (Ok resp, cs'))
  ∧ status resp = 200
  ∧ length cs' = length countries
  ∧ ∃ i (c c' : dict),
      countries !! i = Some c ∧ matches "2" c
      ∧ (∀ j cj, countries !! j = Some cj → (j < i)%nat → ¬ matches "2" cj)
      ∧ cs' !! i = Some c' ∧ body resp = JDict c'
      ∧ c' !! "id" = c !! "id"
      ∧ ∀ j, j ≠ i → cs' !! j = countries !! j.
Proof.
  intros c resp cs'.
  assert (put_country "2" (Json (JDict germany)) countries = (Ok resp, cs')
          ∨ patch_country "2" (Json (JDict germany)) countries = (Ok resp, cs'))
    as Hyp by (left; reflexivity).
  split; [exact Hyp|].
  exact (update_keeps_id_and_others "2" (Json (JDict germany)) countries
           resp cs' Hyp).
Defined.




(** C3, as amended.  For a JSON object, the two checks of POST and PUT
    together force the keys to be exactly [name], [capital] and [area]: an
    object with any other set of keys is never accepted by either handler. *)
Theorem checks_force_all_three_attributes (d first : dict) cs :
  wf_country first →
  check_keys (JStr <$> (map_to_list d).*1) cs = (Ok tt, cs) →
  (size d + 1 =? size first)%nat = true →
  dom d = expected_set
  ∧ (∀ parm_id (d' : dict) cs' resp, wf_store cs' → dom d' ≠ expected_set →
       (put_country parm_id (Json (JDict d')) cs').1 ≠ Ok resp
       ∧ (add_country (Json (JDict d')) cs').1 ≠ Ok resp).
Proof.
  intros Hfirst Hkeys Hsize. split.
  - rewrite check_keys_dict in Hkeys. case_decide as Hsub; [|done].
    by eapply payload_complete.
  - intros parm_id d' cs' resp Hwf Hdom. split.
    + rewrite put_country_run. cbn [py_iter py_len].
      rewrite all_recognized_dict. case_bool_decide as Hsub; [|done].
      destruct (cs' !! 0%nat) as [first'|] eqn:Hfirst'; [|done].
      destruct (size d' + 1 =? size first')%nat eqn:Hsize'; [|done].
      destruct Hdom. eapply payload_complete; [|done..].
      by eapply wf_store_lookup.
    + rewrite add_country_run.
      destruct (validate (JDict d')); [|done].
      case_bool_decide as Hsub; [|done].
      destruct (cs' !! 0%nat) as [first'|] eqn:Hfirst'; [|done].
      destruct (size d' + 1 =? size first')%nat eqn:Hsize'; [|done].
      destruct Hdom. eapply payload_complete; [|done..].
      by eapply wf_store_lookup.
Qed.

Lemma checks_force_all_three_attributes_witness :
  let first : dict := default ∅ (countries !! 0%nat) in
  (wf_country first
   ∧ check_keys (JStr <$> (map_to_list germany).*1) countries = (Ok tt, countries)
   ∧ (size germany + 1 =? size first)%nat = true)
  ∧ dom germany = expected_set
  ∧ (∀ parm_id (d' : dict) cs' resp, wf_store cs' → dom d' ≠ expected_set →
       (put_country parm_id (Json (JDict d')) cs').1 ≠ Ok resp
       ∧ (add_country (Json (JDict d')) cs').1 ≠ Ok resp).
Proof.
  intros first.
  assert (wf_country first) as Hwf by by_decide.
  assert (check_keys (JStr <$> (map_to_list germany).*1) countries
          = (Ok tt, countries)) as Hkeys by reflexivity.
  assert ((size germany + 1 =? size first)%nat = true) as Hsize by reflexivity.
  split; [exact (conj Hwf (conj Hkeys Hsize))|].
  exact (checks_force_all_three_attributes germany first countries
           Hwf Hkeys Hsize).
Defined.

(** C3 as the spec has it has no instance: whatever the payload is (an
    object, whose keys are distinct by construction, or an array or a string
    iterated item by item), when its keys are distinct, pass the key check
    and pass the count check, they are [name], [capital] and [area]. *)
Lemma no_payload_with_three_other_keys :
  ¬ ∃ payload keys n (first : dict) cs,
      wf_country first
      ∧ py_iter payload = Some keys ∧ NoDup keys
      ∧ check_keys keys cs = (Ok tt, cs)
      ∧ py_len payload = Some n ∧ (n + 1 =? size first)%nat = true
      ∧ ¬ keys ≡ₚ JStr <$> expected_payload_attributes.
Proof.
  intros (payload & keys & n & first & cs
          & Hfirst & Hiter & Hnd & Hkeys & Hlen & Hsize & Hother).
  apply Hother, three_distinct_recognized; [done|by eapply check_keys_ok|].
  rewrite (py_len_iter _ _ Hiter) in Hlen. injection Hlen as <-.
  apply Nat.eqb_eq in Hsize. rewrite (wf_country_size _ Hfirst) in Hsize. lia.
Qed.

(** ** Payloads that are not objects

    Only POST checks that the payload is an object.  PUT and PATCH iterate
    and count whatever JSON value they are given, so an array of attribute
    names passes their key check; the count check then sees the length of
    the array, and the assignment loop fails on the first item. *)

Example put_array_of_names :
  put_country "2" (Json (JList [JStr "name"; JStr "name"; JStr "name"])) countries
  = (Raise Uncaught, countries).
Proof. reflexivity. Qed.

Example patch_array_of_four_names :
  patch_country "2"
    (Json (JList [JStr "name"; JStr "name"; JStr "name"; JStr "name"])) countries
  = (Raise (Abort 400), countries).
Proof. reflexivity. Qed.

Example patch_empty_array :
  patch_country "2" (Json (JList [])) countries
  = (Ok (Response 200 (JDict (default ∅ (countries !! 1%nat)))), countries).
Proof. reflexivity. Qed.

(** * Beyond the claims: what each handler computes *)

(** ** Scans with a dict payload on a well-formed list *)

Lemma assign_loop_dict_run i (d : dict) cs (c : dict) :
  cs !! i = Some c →
  assign_loop i (JDict d) (JStr <$> (map_to_list d).*1) cs
  = (Ok tt, <[i := d ∪ c]> cs).
Proof.
  intros Hi.
  destruct (assign_loop_dict i d (map_to_list d).*1 cs c Hi) as (c' & -> & Hc').
  { apply Forall_forall. intros k. by rewrite elem_of_dict_keys. }
  do 2 f_equal. apply map_eq. intros k. rewrite Hc'.
  case_decide as Hk.
  - apply elem_of_dict_keys in Hk as [v Hv].
    by rewrite Hv, (lookup_union_Some_l _ _ _ _ Hv).
  - rewrite lookup_union_r; [done|].
    destruct (d !! k) eqn:Hd; [|done].
    destruct Hk. apply elem_of_dict_keys. by rewrite Hd.
Qed.

Section wf_update.
Variables (parm_id : string) (n : Z) (d : dict).
Hypothesis Hn : py_int parm_id = Some n.

Lemma update_loop_wf : ∀ suf pre,
  wf_store suf →
  update_loop parm_id (JDict d) (seq (length pre) (length suf)) (pre ++ suf)
  = match find_id n suf with
    | Some (j, c) =>
        (Ok (Response 200 (JDict (d ∪ c))),
         <[(length pre + j)%nat := d ∪ c]> (pre ++ suf))
    | None => (Raise (Abort 404), pre ++ suf)
    end.
Proof.
  induction suf as [|c suf IH]; intros pre Hwf; [done|].
  apply Forall_cons in Hwf as [Hc Hwf].
  cbn [length seq update_loop].
  assert ((pre ++ c :: suf) !! length pre = Some c) as Hi
    by by rewrite list_lookup_middle.
  rewrite (bind_ok _ _ _ c (pre ++ c :: suf)) by (by rewrite countries_at_run, Hi).
  rewrite (bind_ok _ _ _ _ _ (id_matches_wf parm_id n Hn c _ Hc)).
  rewrite find_id_cons. case_bool_decide as Hid.
  - rewrite decide_True by done. rewrite Nat.add_0_r.
    cbn [py_iter]. rewrite (bind_ok _ _ _ _ _ (lift_some _ _)).
    rewrite (bind_ok _ _ _ _ _ (assign_loop_dict_run _ d _ c Hi)).
    rewrite (bind_ok _ _ _ (d ∪ c) (<[length pre := d ∪ c]> (pre ++ c :: suf)));
      [done|].
    rewrite countries_at_run, list_lookup_insert_eq; [done|].
    by eapply lookup_lt_Some.
  - rewrite decide_False by done.
    specialize (IH (pre ++ [c]) Hwf).
    rewrite length_app, Nat.add_1_r, <-app_assoc in IH. simpl in IH.
    rewrite IH. destruct (find_id n suf) as [[j cj]|]; [|done].
    simpl. by rewrite Nat.add_succ_r.
Qed.
End wf_update.

(** ** Scans with a path parameter that is not an integer *)

Section bad_parameter.
Variable parm_id : string.
Hypothesis Hbad : py_int parm_id = None.

Lemma id_matches_bad c cs : id_matches c parm_id cs = (Raise Uncaught, cs).
Proof. rewrite id_matches_run, Hbad. by destruct (c !! "id"). Qed.

Lemma get_loop_bad c cs cs0 :
  get_loop parm_id (c :: cs) cs0 = (Raise Uncaught, cs0).
Proof. cbn [get_loop]. apply bind_raise, id_matches_bad. Qed.

Lemma update_loop_bad payload cs :
  cs ≠ [] →
  update_loop parm_id payload (seq 0 (length cs)) cs = (Raise Uncaught, cs).
Proof.
  destruct cs as [|c cs]; [done|]. intros _. cbn [length seq update_loop].
  rewrite (bind_ok _ _ _ c (c :: cs)) by done.
  apply bind_raise, id_matches_bad.
Qed.

Lemma delete_loop_bad cs :
  cs ≠ [] →
  delete_loop parm_id (seq 0 (length cs)) cs = (Raise Uncaught, cs).
Proof.
  destruct cs as [|c cs]; [done|]. intros _. cbn [length seq delete_loop].
  rewrite (bind_ok _ _ _ c (c :: cs)) by done.
  apply bind_raise, id_matches_bad.
Qed.
End bad_parameter.

(** ** The handlers on a well-formed list, outcome by outcome *)

(** What the scan of PUT and PATCH returns for a dict payload. *)
Lemma update_scan_wf parm_id (d : dict) cs :
  wf_store cs → cs ≠ [] →
  update_loop parm_id (JDict d) (seq 0 (length cs)) cs
  = match py_int parm_id with
    | None => (Raise Uncaught, cs)
    | Some n =>
        match find_id n cs with
        | Some (i, c) => (Ok (Response 200 (JDict (d ∪ c))), <[i := d ∪ c]> cs)
        | None => (Raise (Abort 404), cs)
        end
    end.
Proof.
  intros Hwf Hne. destruct (py_int parm_id) as [n|] eqn:Hn.
  - exact (update_loop_wf parm_id n d Hn cs [] Hwf).
  - by apply update_loop_bad.
Qed.

Lemma put_country_wf parm_id (d : dict) cs :
  wf_store cs → cs ≠ [] →
  put_country parm_id (Json (JDict d)) cs
  = if decide (dom d ⊆ expected_set) then
      if decide (size d = 3%nat)
      then update_loop parm_id (JDict d) (seq 0 (length cs)) cs
      else (Raise (Abort 400), cs)
    else (Raise (Abort 422), cs).
Proof.
  intros Hwf Hne. destruct cs as [|first cs]; [done|].
  pose proof Hwf as [Hfirst%wf_country_size _]%Forall_cons.
  rewrite put_country_run. cbn [py_iter py_len].
  rewrite all_recognized_dict.
  change ((first :: cs) !! 0%nat) with (Some first). cbn beta iota.
  case_bool_decide as Hsub; [rewrite decide_True by done|by rewrite decide_False].
  rewrite Hfirst. destruct (Nat.eqb_spec (size d + 1) 4).
  - rewrite decide_True; [done|lia].
  - rewrite decide_False; [done|lia].
Qed.

Lemma patch_country_wf parm_id (d : dict) cs :
  wf_store cs → cs ≠ [] →
  patch_country parm_id (Json (JDict d)) cs
  = if decide (dom d ⊆ expected_set)
    then update_loop parm_id (JDict d) (seq 0 (length cs)) cs
    else (Raise (Abort 422), cs).
Proof.
  intros Hwf Hne. destruct cs as [|first cs]; [done|].
  pose proof Hwf as [Hfirst%wf_country_size _]%Forall_cons.
  rewrite patch_country_run. cbn [py_iter py_len].
  rewrite all_recognized_dict.
  change ((first :: cs) !! 0%nat) with (Some first). cbn beta iota.
  case_bool_decide as Hsub; [rewrite decide_True by done|by rewrite decide_False].
  rewrite Hfirst. apply recognized_size in Hsub.
  destruct (Nat.ltb_spec 4 (size d + 1)); [lia|done].
Qed.

Lemma get_country_by_id_wf parm_id cs :
  wf_store cs →
  get_country_by_id parm_id cs
  = (match cs, py_int parm_id with
     | [], _ => Raise (Abort 404)
     | _ :: _, None => Raise Uncaught
     | _ :: _, Some n =>
         match find_id n cs with
         | Some (_, c) => Ok (Response 200 (JDict c))
         | None => Raise (Abort 404)
         end
     end, cs).
Proof.
  intros Hwf. unfold get_country_by_id. rewrite (bind_ok _ _ cs cs cs) by done.
  destruct cs as [|c cs]; [done|].
  destruct (py_int parm_id) as [n|] eqn:Hn.
  - by rewrite (get_loop_wf parm_id n Hn).
  - by apply get_loop_bad.
Qed.

Lemma delete_country_wf parm_id cs :
  wf_store cs →
  delete_country parm_id cs
  = match cs, py_int parm_id with
    | [], _ => (Raise (Abort 404), cs)
    | _ :: _, None => (Raise Uncaught, cs)
    | _ :: _, Some n =>
        match find_id n cs with
        | Some (i, _) => (Ok (Response 204 (JDict ∅)), delete i cs)
        | None => (Raise (Abort 404), cs)
        end
    end.
Proof.
  intros Hwf. unfold delete_country. rewrite (bind_ok _ _ cs cs cs) by done.
  destruct cs as [|c cs]; [done|].
  destruct (py_int parm_id) as [n|] eqn:Hn.
  - exact (delete_loop_wf parm_id n Hn (c :: cs) [] Hwf).
  - by apply delete_loop_bad.
Qed.

(** ** Looking an id up after a write *)

Lemma find_id_insert_same n : ∀ cs i (c c' : dict),
  find_id n cs = Some (i, c) → int_id c' = Some n →
  find_id n (<[i := c']> cs) = Some (i, c').
Proof.
  induction cs as [|a cs IH]; intros i c c' Hfind Hid; [done|].
  rewrite find_id_cons in Hfind. destruct (decide (has_id n a)) as [Ha|Ha].
  - injection Hfind as <- <-.
    change (<[0%nat := c']> (a :: cs)) with (c' :: cs).
    by rewrite find_id_cons, decide_True.
  - destruct (find_id n cs) as [[j cj]|] eqn:Hj; [|done].
    injection Hfind as <- <-.
    change (<[S j := c']> (a :: cs)) with (a :: <[j := c']> cs).
    by rewrite find_id_cons, decide_False, (IH j cj c').
Qed.

Lemma find_id_insert_other n n' : ∀ cs i (c c' : dict),
  cs !! i = Some c → int_id c = Some n → int_id c' = Some n → n' ≠ n →
  find_id n' (<[i := c']> cs) = find_id n' cs.
Proof.
  induction cs as [|a cs IH]; intros [|i] c c' Hi Hc Hc' Hne; try done.
  - injection Hi as ->.
    change (<[0%nat := c']> (c :: cs)) with (c' :: cs).
    rewrite !find_id_cons, !decide_False; [done|..]; unfold has_id; congruence.
  - change (<[S i := c']> (a :: cs)) with (a :: <[i := c']> cs).
    by rewrite !find_id_cons, (IH i c c').
Qed.

Lemma find_id_delete_other n n' : ∀ cs i (c : dict),
  cs !! i = Some c → int_id c = Some n → n' ≠ n →
  snd <$> find_id n' (delete i cs) = snd <$> find_id n' cs.
Proof.
  induction cs as [|a cs IH]; intros [|i] c Hi Hc Hne; try done.
  - injection Hi as ->. change (delete 0%nat (c :: cs)) with cs.
    rewrite find_id_cons, decide_False by (unfold has_id; congruence).
    by destruct (find_id n' cs) as [[j cj]|].
  - change (delete (S i) (a :: cs)) with (a :: delete i cs).
    rewrite !find_id_cons. case_decide; [done|].
    specialize (IH i c Hi Hc Hne).
    destruct (find_id n' (delete i cs)) as [[j cj]|],
             (find_id n' cs) as [[j' cj']|]; simpl in *; congruence.
Qed.

Lemma find_id_snoc_new n cs (c : dict) :
  n ∉ ids cs → int_id c = Some n →
  find_id n (cs ++ [c]) = Some (length cs, c).
Proof.
  intros Hnew Hc. unfold find_id.
  rewrite list_find_app_r by by apply find_id_not_elem_of.
  cbn [list_find]. by rewrite decide_True.
Qed.

Lemma find_id_snoc_old n n' cs (c : dict) :
  int_id c = Some n → n' ≠ n →
  snd <$> find_id n' (cs ++ [c]) = snd <$> find_id n' cs.
Proof.
  intros Hc Hne. unfold find_id.
  destruct (list_find (has_id n') cs) as [[j cj]|] eqn:Hfind.
  - by rewrite (list_find_app_l _ _ _ _ _ Hfind).
  - rewrite list_find_app_r by done. cbn [list_find].
    rewrite decide_False; [done|]. unfold has_id. congruence.
Qed.

Lemma find_id_unique n cs (c : dict) :
  NoDup (ids cs) → c ∈ cs → int_id c = Some n →
  ∃ i, find_id n cs = Some (i, c).
Proof.
  induction cs as [|a cs IH]; intros Hnd Hin Hc; [by apply elem_of_nil in Hin|].
  rewrite find_id_cons. rewrite ids_unfold in Hnd.
  apply elem_of_cons in Hin as [->|Hin].
  - exists 0%nat. by rewrite decide_True.
  - destruct (decide (has_id n a)) as [Ha|Ha].
    + unfold has_id in Ha. rewrite Ha in Hnd.
      apply NoDup_cons in Hnd as [Hfresh _]. destruct Hfresh.
      apply list_elem_of_omap. by exists c.
    + destruct (IH) as [i ->]; [|done..|by exists (S i)].
      destruct (int_id a); [by apply NoDup_cons in Hnd as [_ ?]|done].
Qed.

(** ** A successful POST, read backwards *)

Lemma add_country_ok_inv req cs resp cs' :
  wf_store cs → add_country req cs = (Ok resp, cs') →
  ∃ (d : dict) m,
    req = Json (JDict d) ∧ validate (JDict d) = true ∧ dom d = expected_set
    ∧ m ∈ ids cs ∧ (∀ x, x ∈ ids cs → x ≤ m)
    ∧ resp = Response 201 (JDict (<["id" := JInt (m + 1)]> d))
    ∧ cs' = cs ++ [<["id" := JInt (m + 1)]> d].
Proof.
  intros Hwf Hrun. pose proof Hrun as Hrun'.
  rewrite add_country_run in Hrun.
  destruct req as [| |payload]; [done..|]. destruct payload; try done.
  destruct (validate (JDict d)) eqn:Hvalid; [|done].
  case_bool_decide as Hsub; [|done].
  destruct (cs !! 0%nat) as [first|] eqn:Hfirst; [|done].
  destruct (size d + 1 =? size first)%nat eqn:Hsize; [|done].
  destruct (add_country_created cs d first) as (m & Hm & Hle & Hadd); [done..|].
  rewrite Hadd in Hrun'. injection Hrun' as <- <-.
  exists d, m. split; [done|]. split; [done|]. split; [|done].
  eapply payload_complete; [|done..]. by eapply wf_store_lookup.
Qed.

Lemma new_id_fresh cs m : (∀ x, x ∈ ids cs → x ≤ m) → m + 1 ∉ ids cs.
Proof. intros Hle Hin%Hle. lia. Qed.

Lemma int_id_new (d : dict) k : int_id (<["id" := JInt k]> d) = Some k.
Proof. unfold int_id. by rewrite lookup_insert_eq. Qed.

(** ** The record a full payload leaves behind *)

Lemma put_record (d c : dict) n :
  wf_country c → int_id c = Some n → dom d = expected_set →
  d ∪ c = <["id" := JInt n]> d.
Proof.
  intros [Hdom _] Hid Hd. apply map_eq. intros k.
  assert (c !! "id" = Some (JInt n)) as Hcid.
  { unfold int_id in Hid. destruct (c !! "id") as [[]|]; congruence. }
  assert (d !! "id" = None) as Hdid.
  { apply not_elem_of_dom. rewrite Hd. apply id_not_expected. }
  destruct (decide (k = "id")) as [->|Hk].
  - by rewrite lookup_insert_eq, lookup_union_r.
  - rewrite lookup_insert_ne by done.
    destruct (d !! k) as [v|] eqn:Hv; [by apply lookup_union_Some_l|].
    rewrite lookup_union_r by done. apply not_elem_of_dom.
    rewrite Hdom. unfold country_fields. rewrite <-Hd.
    apply not_elem_of_dom in Hv. set_solver.
Qed.

(** ** A handler that raises writes nothing *)

Lemma update_loop_raise parm_id payload keys idxs cs e cs' :
  py_iter payload = Some keys → all_recognized keys = true →
  update_loop parm_id payload idxs cs = (Raise e, cs') → cs' = cs.
Proof.
  intros Hiter Hall Hrun.
  destruct (update_loop_cases parm_id payload keys idxs cs Hiter
              (all_recognized_Forall _ Hall))
    as [H|[H|(i & c & pre & post & _ & _ & _ & _ & H)]];
    rewrite H in Hrun; by simplify_eq.
Qed.

Lemma put_country_raise parm_id req cs e cs' :
  put_country parm_id req cs = (Raise e, cs') → cs' = cs.
Proof.
  rewrite put_country_run.
  destruct req as [| |payload]; [by intros [= _ <-]..|].
  destruct (py_iter payload) as [keys|] eqn:Hiter; [|by intros [= _ <-]].
  destruct (all_recognized keys) eqn:Hall; [|by intros [= _ <-]].
  destruct (py_len payload) as [n|]; [|by intros [= _ <-]].
  destruct (cs !! 0%nat) as [first|]; [|by intros [= _ <-]].
  destruct (n + 1 =? size first)%nat; [|by intros [= _ <-]].
  by apply (update_loop_raise _ _ keys).
Qed.

Lemma patch_country_raise parm_id req cs e cs' :
  patch_country parm_id req cs = (Raise e, cs') → cs' = cs.
Proof.
  rewrite patch_country_run.
  destruct req as [| |payload]; [by intros [= _ <-]..|].
  destruct (py_iter payload) as [keys|] eqn:Hiter; [|by intros [= _ <-]].
  destruct (all_recognized keys) eqn:Hall; [|by intros [= _ <-]].
  destruct (py_len payload) as [n|]; [|by intros [= _ <-]].
  destruct (cs !! 0%nat) as [first|]; [|by intros [= _ <-]].
  destruct (size first <? n + 1)%nat; [by intros [= _ <-]|].
  by apply (update_loop_raise _ _ keys).
Qed.

Lemma delete_country_raise parm_id cs e cs' :
  delete_country parm_id cs = (Raise e, cs') → cs' = cs.
Proof.
  unfold delete_country. rewrite (bind_ok _ _ cs cs cs) by done.
  destruct (delete_loop_cases parm_id (seq 0 (length cs)) cs)
    as [->|[->|(i & c & _ & _ & _ & ->)]]; [| |done]; by intros [= _ <-].
Qed.

Lemma add_country_raise req cs e cs' :
  add_country req cs = (Raise e, cs') → cs' = cs.
Proof.
  rewrite add_country_run.
  destruct req as [| |payload]; [by intros [= _ <-]..|].
  destruct payload; try by intros [= _ <-].
  destruct (validate (JDict d)); [|by intros [= _ <-]].
  case_bool_decide; [|by intros [= _ <-]].
  destruct (cs !! 0%nat) as [first|]; [|by intros [= _ <-]].
  destruct (size d + 1 =? size first)%nat; [|by intros [= _ <-]].
  destruct (_find_next_id cs) as [[next_id|e'] s]; [done|by intros [= _ <-]].
Qed.

Lemma get_country_by_id_frame parm_id cs : (get_country_by_id parm_id cs).2 = cs.
Proof.
  unfold get_country_by_id. rewrite (bind_ok _ _ cs cs cs) by done.
  apply get_loop_frame.
Qed.

Lemma expected_set_elems k :
  k ∈ expected_set ↔ k = "name"%string ∨ k = "capital"%string ∨ k = "area"%string.
Proof.
  unfold expected_set, expected_payload_attributes.
  rewrite elem_of_list_to_set, !elem_of_cons, elem_of_nil. naive_solver.
Qed.

Lemma full_payload_size (d : dict) : dom d = expected_set → size d = 3%nat.
Proof. intros Hd. by rewrite <-size_dom, Hd. Qed.

(** ** PUT and PATCH *)

(** X1.  PUT of a JSON object on a non-empty list of well-formed records:
    with exactly the keys [name], [capital] and [area] the first record whose
    id is [int(parm_id)] becomes the payload plus that id (no value is type
    checked), and the new record is returned with 200; 404 when no record has
    the id, 500 when the parameter is not an integer.  Recognised keys that
    are not all three give 400, any other key 422. *)
Theorem put_replaces_record parm_id (d : dict) cs :
  wf_store cs → cs ≠ [] →
  put_country parm_id (Json (JDict d)) cs
  = if decide (dom d = expected_set) then
      match py_int parm_id with
      | None => (Raise Uncaught, cs)
      | Some n =>
          match find_id n cs with
          | Some (i, _) =>
              (Ok (Response 200 (JDict (<["id" := JInt n]> d))),
               <[i := <["id" := JInt n]> d]> cs)
          | None => (Raise (Abort 404), cs)
          end
      end
    else if decide (dom d ⊆ expected_set) then (Raise (Abort 400), cs)
    else (Raise (Abort 422), cs).
Proof.
  intros Hwf Hne. rewrite put_country_wf by done.
  destruct (decide (dom d = expected_set)) as [Hd|Hd].
  - rewrite decide_True by by rewrite Hd.
    rewrite decide_True by by apply full_payload_size.
    rewrite update_scan_wf by done.
    destruct (py_int parm_id) as [n|]; [|done].
    destruct (find_id n cs) as [[i c]|] eqn:Hfind; [|done].
    apply find_id_Some in Hfind as (Hi & Hid & _).
    by rewrite (put_record d c n) by eauto using wf_store_lookup.
  - case_decide as Hsub; [|done].
    rewrite decide_False; [done|]. intros Hsize. by apply Hd, recognized_three.
Qed.

Lemma put_replaces_record_witness :
  (wf_store countries ∧ countries ≠ [])
  ∧ put_country "2" (Json (JDict germany)) countries
    = if decide (dom germany = expected_set) then
        match py_int "2" with
        | None => (Raise Uncaught, countries)
        | Some n =>
            match find_id n countries with
            | Some (i, _) =>
                (Ok (Response 200 (JDict (<["id" := JInt n]> germany))),
                 <[i := <["id" := JInt n]> germany]> countries)
            | None => (Raise (Abort 404), countries)
            end
        end
      else if decide (dom germany ⊆ expected_set)
      then (Raise (Abort 400), countries)
      else (Raise (Abort 422), countries).
Proof.
  assert (wf_store countries ∧ countries ≠ []) as Hyp.
  { split; [apply countries_inv|by unfold countries]. }
  split; [exact Hyp|].
  exact (put_replaces_record "2" germany countries (proj1 Hyp) (proj2 Hyp)).
Defined.

(** X2.  PATCH of a JSON object on a non-empty list of well-formed records:
    with recognised keys only (any number of them, none included) the first
    record whose id is [int(parm_id)] takes the values of the payload and
    keeps every other field, and is returned with 200; 404 when no record
    has the id, 500 when the parameter is not an integer, 422 on any other
    key. *)
Theorem patch_merges_fields parm_id (d : dict) cs :
  wf_store cs → cs ≠ [] →
  patch_country parm_id (Json (JDict d)) cs
  = (if decide (dom d ⊆ expected_set) then
       match py_int parm_id with
       | None => (Raise Uncaught, cs)
       | Some n =>
           match find_id n cs with
           | Some (i, c) =>
               (Ok (Response 200 (JDict (d ∪ c))), <[i := d ∪ c]> cs)
           | None => (Raise (Abort 404), cs)
           end
       end
     else (Raise (Abort 422), cs))
  ∧ ∀ (c : dict) k,
      (d ∪ c) !! k = match d !! k with Some v => Some v | None => c !! k end.
Proof.
  intros Hwf Hne. split.
  - rewrite patch_country_wf by done. case_decide; [|done].
    by rewrite update_scan_wf.
  - intros c k. destruct (d !! k) as [v|] eqn:Hv.
    + by apply lookup_union_Some_l.
    + by apply lookup_union_r.
Qed.

Lemma patch_merges_fields_witness :
  let d : dict := {[ "capital" := JStr "Sydney" ]} in
  (wf_store countries ∧ countries ≠ [])
  ∧ patch_country "2" (Json (JDict d)) countries
    = (if decide (dom d ⊆ expected_set) then
         match py_int "2" with
         | None => (Raise Uncaught, countries)
         | Some n =>
             match find_id n countries with
             | Some (i, c) =>
                 (Ok (Response 200 (JDict (d ∪ c))), <[i := d ∪ c]> countries)
             | None => (Raise (Abort 404), countries)
             end
         end
       else (Raise (Abort 422), countries))
  ∧ ∀ (c : dict) k,
      (d ∪ c) !! k = match d !! k with Some v => Some v | None => c !! k end.
Proof.
  intros d.
  assert (wf_store countries ∧ countries ≠ []) as Hyp.
  { split; [apply countries_inv|by unfold countries]. }
  split; [exact Hyp|].
  exact (patch_merges_fields "2" d countries (proj1 Hyp) (proj2 Hyp)).
Defined.

(** ** POST *)



(** ** GET by id *)

(** X4.  With distinct ids, GET with a path parameter that [int] reads as
    the id of a record of the list returns that very record with 200 and
    leaves the list as it is. *)
Theorem get_returns_the_record parm_id n (c : dict) cs :
  store_inv cs → c ∈ cs → int_id c = Some n → py_int parm_id = Some n →
  get_country_by_id parm_id cs = (Ok (Response 200 (JDict c)), cs).
Proof.
  intros [Hwf Hnd] Hin Hid Hn.
  destruct (find_id_unique n cs c Hnd Hin Hid) as [i Hfind].
  rewrite get_country_by_id_wf, Hn, Hfind by done.
  by destruct cs.
Qed.

Lemma get_returns_the_record_witness :
  let c : dict := default ∅ (countries !! 2%nat) in
  (store_inv countries ∧ c ∈ countries ∧ int_id c = Some 3
   ∧ py_int "3" = Some 3)
  ∧ get_country_by_id "3" countries = (Ok (Response 200 (JDict c)), countries).
Proof.
  intros c.
  assert (c ∈ countries) as Hin.
  { apply list_elem_of_lookup. by exists 2%nat. }
  assert (int_id c = Some 3) as Hid by reflexivity.
  assert (py_int "3" = Some 3) as Hn by reflexivity.
  split; [exact (conj countries_inv (conj Hin (conj Hid Hn)))|].
  exact (get_returns_the_record "3" 3 c countries countries_inv Hin Hid Hn).
Defined.

(** ** Edges: a parameter that is not an integer, an empty or short list *)

(** X5.  On a non-empty list, whatever its records are, GET and DELETE with
    a path parameter that [int] cannot read are answered 500 and write
    nothing: [int(parm_id)] raises [ValueError] at the first record.  So are
    PUT and PATCH once a full object payload has passed their checks. *)
Theorem non_integer_parameter_500 parm_id cs :
  py_int parm_id = None → cs ≠ [] →
  get_country_by_id parm_id cs = (Raise Uncaught, cs)
  ∧ delete_country parm_id cs = (Raise Uncaught, cs)
  ∧ http_status (get_country_by_id parm_id cs).1 = 500
  ∧ http_status (delete_country parm_id cs).1 = 500
  ∧ ∀ d : dict, wf_store cs → dom d = expected_set →
      put_country parm_id (Json (JDict d)) cs = (Raise Uncaught, cs)
      ∧ patch_country parm_id (Json (JDict d)) cs = (Raise Uncaught, cs).
Proof.
  intros Hbad Hne.
  assert (get_country_by_id parm_id cs = (Raise Uncaught, cs)) as Hget.
  { unfold get_country_by_id. rewrite (bind_ok _ _ cs cs cs) by done.
    destruct cs as [|c cs]; [done|]. by apply get_loop_bad. }
  assert (delete_country parm_id cs = (Raise Uncaught, cs)) as Hdel.
  { unfold delete_country. rewrite (bind_ok _ _ cs cs cs) by done.
    by apply delete_loop_bad. }
  rewrite Hget, Hdel. do 4 (split; [done|]).
  intros d Hwf Hd. split.
  - rewrite put_country_wf by done.
    rewrite decide_True by by rewrite Hd.
    rewrite decide_True by by apply full_payload_size.
    by apply update_loop_bad.
  - rewrite patch_country_wf by done.
    rewrite decide_True by by rewrite Hd.
    by apply update_loop_bad.
Qed.

Lemma non_integer_parameter_500_witness :
  (py_int "two" = None ∧ countries ≠ [])
  ∧ get_country_by_id "two" countries = (Raise Uncaught, countries)
  ∧ delete_country "two" countries = (Raise Uncaught, countries)
  ∧ http_status (get_country_by_id "two" countries).1 = 500
  ∧ http_status (delete_country "two" countries).1 = 500
  ∧ ∀ d : dict, wf_store countries → dom d = expected_set →
      put_country "two" (Json (JDict d)) countries = (Raise Uncaught, countries)
      ∧ patch_country "two" (Json (JDict d)) countries = (Raise Uncaught, countries).
Proof.
  assert (py_int "two" = None) as Hbad by reflexivity.
  assert (countries ≠ []) as Hne by by unfold countries.
  split; [exact (conj Hbad Hne)|].
  exact (non_integer_parameter_500 "two" countries Hbad Hne).
Defined.

(** X6.  On the empty list nothing that needs [countries[0]] works: a POST
    that passes the schema and the key check, and a PUT or a PATCH of an
    object with recognised keys, are answered 500 ([IndexError]), and the
    list stays empty.  GET and DELETE by id scan nothing and answer 404
    whatever the parameter is, integer or not. *)
Theorem empty_store_outcomes parm_id (d : dict) :
  dom d ⊆ expected_set →
  (validate (JDict d) = true → add_country (Json (JDict d)) [] = (Raise Uncaught, []))
  ∧ put_country parm_id (Json (JDict d)) [] = (Raise Uncaught, [])
  ∧ patch_country parm_id (Json (JDict d)) [] = (Raise Uncaught, [])
  ∧ get_country_by_id parm_id [] = (Raise (Abort 404), [])
  ∧ delete_country parm_id [] = (Raise (Abort 404), []).
Proof.
  intros Hsub. split; [|split; [|split; [|done]]].
  - intros Hvalid. by rewrite add_country_run, Hvalid, bool_decide_true.
  - rewrite put_country_run. cbn [py_iter py_len].
    by rewrite all_recognized_dict, bool_decide_true.
  - rewrite patch_country_run. cbn [py_iter py_len].
    by rewrite all_recognized_dict, bool_decide_true.
Qed.

Lemma empty_store_outcomes_witness :
  (dom germany ⊆ expected_set ∧ validate (JDict germany) = true)
  ∧ add_country (Json (JDict germany)) [] = (Raise Uncaught, [])
  ∧ put_country "1" (Json (JDict germany)) [] = (Raise Uncaught, [])
  ∧ patch_country "1" (Json (JDict germany)) [] = (Raise Uncaught, [])
  ∧ get_country_by_id "1" [] = (Raise (Abort 404), [])
  ∧ delete_country "1" [] = (Raise (Abort 404), []).
Proof.
  assert (dom germany ⊆ expected_set) as Hsub by by_decide.
  assert (validate (JDict germany) = true) as Hvalid by reflexivity.
  split; [exact (conj Hsub Hvalid)|].
  destruct (empty_store_outcomes "1" germany Hsub) as (Hadd & Hrest).
  exact (conj (Hadd Hvalid) Hrest).
Defined.

(** X7.  GET /country on a list with fewer than two records is answered
    500: [countries[1]] raises [IndexError]. *)
Theorem get_country_short_list_500 cs :
  (length cs < 2)%nat →
  get_country cs = (Raise Uncaught, cs)
  ∧ http_status (get_country cs).1 = 500.
Proof.
  intros Hlen. rewrite get_country_run, lookup_ge_None_2; [done|lia].
Qed.

Lemma get_country_short_list_500_witness :
  let cs := take 1 countries in
  (length cs < 2)%nat
  ∧ get_country cs = (Raise Uncaught, cs)
  ∧ http_status (get_country cs).1 = 500.
Proof.
  intros cs.
  assert (length cs < 2)%nat as Hlen by (simpl; lia).
  split; [exact Hlen|]. exact (get_country_short_list_500 cs Hlen).
Defined.

Lemma get_country_by_id_ok_status parm_id cs resp cs' :
  get_country_by_id parm_id cs = (Ok resp, cs') → status resp = 200.
Proof.
  unfold get_country_by_id. rewrite (bind_ok _ _ cs cs cs) by done.
  generalize cs at 2. intros s.
  induction cs as [|a l IH]; intros Hl; [done|].
  cbn [get_loop] in Hl. unfold mbind, M_bind in Hl.
  rewrite id_matches_run in Hl.
  destruct (a !! "id") as [v|]; [|done].
  destruct (py_int parm_id) as [n|]; [|done].
  destruct (py_eq_int v n); [by injection Hl as <-|by apply IH].
Qed.

Lemma update_ok_inv parm_id req cs resp cs' :
  put_country parm_id req cs = (Ok resp, cs')
  ∨ patch_country parm_id req cs = (Ok resp, cs') →
  ∃ payload keys,
    req = Json payload ∧ py_iter payload = Some keys
    ∧ all_recognized keys = true
    ∧ update_loop parm_id payload (seq 0 (length cs)) cs = (Ok resp, cs').
Proof.
  intros [Hrun|Hrun];
    [rewrite put_country_run in Hrun|rewrite patch_country_run in Hrun];
    (destruct req as [| |payload]; [done..|];
     destruct (py_iter payload) as [keys|] eqn:Hiter; [|done];
     destruct (all_recognized keys) eqn:Hall; [|done];
     destruct (py_len payload) as [n|]; [|done];
     destruct (cs !! 0%nat) as [first|]; [|done]).
  - destruct (n + 1 =? size first)%nat; [|done]. by exists payload, keys.
  - destruct (size first <? n + 1)%nat; [done|]. by exists payload, keys.
Qed.

Lemma update_keeps_put_patch parm_id req cs resp cs' :
  put_country parm_id req cs = (Ok resp, cs')
  ∨ patch_country parm_id req cs = (Ok resp, cs') →
  status resp = 200 ∧ length cs' = length cs.
Proof.
  intros (payload & keys & _ & Hiter & Hall & Hloop)%update_ok_inv.
  destruct (update_loop_ok _ _ _ _ _ _ Hiter Hall Hloop)
    as (i & c & _ & _ & _ & _ & -> & ->).
  split; [done|apply length_insert].
Qed.

(** ** What no request does *)

Lemma dispatch_raise_frame c cs e :
  (dispatch c cs).1 = Raise e → (dispatch c cs).2 = cs.
Proof.
  intros Hrun. destruct (dispatch c cs) as [r cs'] eqn:Hd.
  simpl in Hrun. subst r. simpl. destruct c; cbn [dispatch] in Hd.
  - done.
  - by eapply add_country_raise.
  - rewrite get_country_run in Hd. by injection Hd as _ <-.
  - by rewrite <-(get_country_by_id_frame parm_id cs), Hd.
  - by eapply put_country_raise.
  - by eapply patch_country_raise.
  - by eapply delete_country_raise.
Qed.

(** X8.  A request that fails in any way, by [abort] or by an exception that
    ends in a 500, leaves the list exactly as it was; this holds for every
    handler, every request and every list. *)
Theorem failure_writes_nothing c cs :
  400 ≤ http_status (dispatch c cs).1 → (dispatch c cs).2 = cs.
Proof.
  destruct (dispatch c cs) as [[resp|e] cs'] eqn:Hd.
  - intros Hstatus. simpl in Hstatus.
    assert (status resp = 200 ∨ status resp = 201 ∨ status resp = 204)
      as Hok; [|lia].
    destruct c; cbn [dispatch] in Hd.
    + injection Hd as <- _. by left.
    + rewrite add_country_run in Hd.
      destruct req as [| |payload]; [done..|]. destruct payload; try done.
      destruct (validate (JDict d)); [|done]. case_bool_decide; [|done].
      destruct (cs !! 0%nat) as [first|]; [|done].
      destruct (size d + 1 =? size first)%nat; [|done].
      destruct (_find_next_id cs) as [[next_id|e] s]; [|done].
      injection Hd as <- _. right. by left.
    + rewrite get_country_run in Hd. destruct (cs !! 1%nat); [|done].
      injection Hd as <- _. by left.
    + left. by eapply get_country_by_id_ok_status.
    + left. by eapply update_keeps_put_patch; left.
    + left. by eapply update_keeps_put_patch; right.
    + unfold delete_country in Hd. rewrite (bind_ok _ _ cs cs cs) in Hd by done.
      destruct (delete_loop_cases parm_id (seq 0 (length cs)) cs)
        as [H|[H|(i & ci & _ & _ & _ & H)]]; rewrite H in Hd; [done..|].
      injection Hd as <- _. right. by right.
  - intros _. by rewrite <-(dispatch_raise_frame c cs e), Hd by by rewrite Hd.
Qed.

Lemma failure_writes_nothing_witness :
  let c := PATCH_countries_id "x" (Json (JDict germany)) in
  400 ≤ http_status (dispatch c countries).1
  ∧ (dispatch c countries).2 = countries.
Proof.
  intros c.
  assert (400 ≤ http_status (dispatch c countries).1) as Hrun by by_decide.
  split; [exact Hrun|].
  exact (failure_writes_nothing c countries Hrun).
Defined.

(** X9.  The three GET handlers never write: whatever they answer, the list
    after the call is the list before it. *)
Theorem get_handlers_read_only parm_id cs :
  (get_countries cs).2 = cs
  ∧ (get_country cs).2 = cs
  ∧ (get_country_by_id parm_id cs).2 = cs.
Proof.
  split; [done|]. split; [by rewrite get_country_run|].
  apply get_country_by_id_frame.
Qed.

(** X10.  The status of a response tells how the length of the list
    changed: one more record after a 201, one less after a 204, the same
    number after anything else, failures included. *)
Theorem status_accounts_for_length c cs :
  length (dispatch c cs).2
  = match (dispatch c cs).1 with
    | Ok resp =>
        if decide (status resp = 201) then S (length cs)
        else if decide (status resp = 204) then pred (length cs)
        else length cs
    | Raise _ => length cs
    end.
Proof.
  destruct (dispatch c cs) as [[resp|e] cs'] eqn:Hd; simpl.
  2: { by rewrite <-(dispatch_raise_frame c cs e), Hd by by rewrite Hd. }
  destruct c; cbn [dispatch] in Hd.
  - by injection Hd as <- <-.
  - rewrite add_country_run in Hd.
    destruct req as [| |payload]; [done..|]. destruct payload; try done.
    destruct (validate (JDict d)); [|done]. case_bool_decide; [|done].
    destruct (cs !! 0%nat) as [first|]; [|done].
    destruct (size d + 1 =? size first)%nat; [|done].
    destruct (_find_next_id cs) as [[next_id|e] s]; [|done].
    injection Hd as <- <-. simpl. rewrite length_app. simpl. lia.
  - rewrite get_country_run in Hd. destruct (cs !! 1%nat); [|done].
    by injection Hd as <- <-.
  - pose proof (get_country_by_id_frame parm_id cs) as Hframe.
    rewrite Hd in Hframe. simpl in Hframe. subst cs'.
    by rewrite (get_country_by_id_ok_status _ _ _ _ Hd).
  - destruct (update_keeps_put_patch parm_id req cs resp cs' (or_introl Hd))
      as [Hst ->]. by rewrite Hst.
  - destruct (update_keeps_put_patch parm_id req cs resp cs' (or_intror Hd))
      as [Hst ->]. by rewrite Hst.
  - unfold delete_country in Hd. rewrite (bind_ok _ _ cs cs cs) in Hd by done.
    destruct (delete_loop_cases parm_id (seq 0 (length cs)) cs)
      as [H|[H|(i & ci & _ & Hi & _ & H)]]; rewrite H in Hd; [done..|].
    injection Hd as <- <-. simpl.
    rewrite length_delete by by eexists. lia.
Qed.

(** ** How requests compose *)

Lemma get_wf_found parm_id n i (c : dict) cs :
  wf_store cs → py_int parm_id = Some n → find_id n cs = Some (i, c) →
  get_country_by_id parm_id cs = (Ok (Response 200 (JDict c)), cs).
Proof.
  intros Hwf Hn Hfind. rewrite get_country_by_id_wf, Hn, Hfind by done.
  by destruct cs.
Qed.

Lemma get_wf_same_lookup parm_id n cs cs' :
  wf_store cs → wf_store cs' → cs ≠ [] → cs' ≠ [] →
  py_int parm_id = Some n →
  snd <$> find_id n cs' = snd <$> find_id n cs →
  (get_country_by_id parm_id cs').1 = (get_country_by_id parm_id cs).1.
Proof.
  intros Hwf Hwf' Hne Hne' Hn Hfind.
  rewrite !get_country_by_id_wf, Hn by done.
  revert Hfind. generalize (find_id n cs') (find_id n cs).
  intros [[j cj]|] [[j' cj']|] Hfind;
    destruct cs as [|a cs], cs' as [|a' cs']; simpl in *; congruence.
Qed.

(** X11.  A record created by POST can be read back: GET of the id that the
    201 response carries returns the created record, and GET of any other
    integer id answers what it answered before the POST. *)
Theorem post_then_get req cs resp cs' :
  wf_store cs → add_country req cs = (Ok resp, cs') →
  ∃ (c : dict) k,
    resp = Response 201 (JDict c) ∧ int_id c = Some k
    ∧ (∀ parm_id, py_int parm_id = Some k →
         get_country_by_id parm_id cs' = (Ok (Response 200 (JDict c)), cs'))
    ∧ (∀ parm_id k', py_int parm_id = Some k' → k' ≠ k →
         (get_country_by_id parm_id cs').1 = (get_country_by_id parm_id cs).1).
Proof.
  intros Hwf Hrun.
  assert (cs ≠ []) as Hne.
  { intros ->. rewrite add_country_run in Hrun.
    destruct req as [| |[]]; try done.
    destruct (validate _); [|done]. by case_bool_decide. }
  destruct (add_country_ok_inv req cs resp cs' Hwf Hrun)
    as (d & m & -> & Hvalid & Hd & Hm & Hle & -> & ->).
  set (c := <["id" := JInt (m + 1)]> d).
  assert (wf_store (cs ++ [c])) as Hwf'.
  { apply Forall_app. split; [done|].
    apply Forall_singleton. by apply wf_country_new. }
  exists c, (m + 1). split; [done|]. split; [apply int_id_new|]. split.
  - intros parm_id Hn. apply (get_wf_found parm_id (m + 1) (length cs)); [done..|].
    apply find_id_snoc_new; [by apply new_id_fresh|apply int_id_new].
  - intros parm_id k' Hn Hne'.
    apply (get_wf_same_lookup parm_id k'); [done..|by destruct cs|done|].
    apply (find_id_snoc_old (m + 1)); [apply int_id_new|done].
Qed.

Lemma post_then_get_witness :
  let created := <["id" := JInt 4]> germany in
  (wf_store countries
   ∧ add_country (Json (JDict germany)) countries
     = (Ok (Response 201 (JDict created)), countries ++ [created]))
  ∧ ∃ (c : dict) k,
      Response 201 (JDict created) = Response 201 (JDict c) ∧ int_id c = Some k
      ∧ (∀ parm_id, py_int parm_id = Some k →
           get_country_by_id parm_id (countries ++ [created])
           = (Ok (Response 200 (JDict c)), countries ++ [created]))
      ∧ (∀ parm_id k', py_int parm_id = Some k' → k' ≠ k →
           (get_country_by_id parm_id (countries ++ [created])).1
           = (get_country_by_id parm_id countries).1).
Proof.
  intros created.
  pose proof countries_inv as [Hwf _].
  assert (add_country (Json (JDict germany)) countries
          = (Ok (Response 201 (JDict created)), countries ++ [created])) as Hrun
    by reflexivity.
  split; [exact (conj Hwf Hrun)|].
  exact (post_then_get _ _ _ _ Hwf Hrun).
Defined.

(** X12.  DELETE of the id that a 201 response carries undoes the POST: the
    list is again the list before the POST. *)
Theorem post_then_delete req cs resp cs' :
  wf_store cs → add_country req cs = (Ok resp, cs') →
  ∃ (c : dict) k,
    resp = Response 201 (JDict c) ∧ int_id c = Some k
    ∧ ∀ parm_id, py_int parm_id = Some k →
        delete_country parm_id cs' = (Ok (Response 204 (JDict ∅)), cs).
Proof.
  intros Hwf Hrun.
  destruct (add_country_ok_inv req cs resp cs' Hwf Hrun)
    as (d & m & -> & Hvalid & Hd & Hm & Hle & -> & ->).
  set (c := <["id" := JInt (m + 1)]> d).
  assert (wf_store (cs ++ [c])) as Hwf'.
  { apply Forall_app. split; [done|].
    apply Forall_singleton. by apply wf_country_new. }
  exists c, (m + 1). split; [done|]. split; [apply int_id_new|].
  intros parm_id Hn. unfold delete_country.
  rewrite (bind_ok _ _ (cs ++ [c]) (cs ++ [c]) (cs ++ [c])) by done.
  pose proof (delete_loop_wf parm_id (m + 1) Hn (cs ++ [c]) [] Hwf') as Hrun'.
  simpl in Hrun'. rewrite Hrun'.
  rewrite find_id_snoc_new by (by apply new_id_fresh || apply int_id_new).
  by rewrite delete_middle, app_nil_r.
Qed.

Lemma post_then_delete_witness :
  let created := <["id" := JInt 4]> germany in
  (wf_store countries
   ∧ add_country (Json (JDict germany)) countries
     = (Ok (Response 201 (JDict created)), countries ++ [created]))
  ∧ ∃ (c : dict) k,
      Response 201 (JDict created) = Response 201 (JDict c) ∧ int_id c = Some k
      ∧ ∀ parm_id, py_int parm_id = Some k →
          delete_country parm_id (countries ++ [created])
          = (Ok (Response 204 (JDict ∅)), countries).
Proof.
  intros created.
  pose proof countries_inv as [Hwf _].
  assert (add_country (Json (JDict germany)) countries
          = (Ok (Response 201 (JDict created)), countries ++ [created])) as Hrun
    by reflexivity.
  split; [exact (conj Hwf Hrun)|].
  exact (post_then_delete _ _ _ _ Hwf Hrun).
Defined.

Lemma update_ok_wf parm_id (d : dict) cs resp cs' :
  wf_store cs →
  put_country parm_id (Json (JDict d)) cs = (Ok resp, cs')
  ∨ patch_country parm_id (Json (JDict d)) cs = (Ok resp, cs') →
  ∃ n i (c : dict),
    py_int parm_id = Some n ∧ find_id n cs = Some (i, c)
    ∧ dom d ⊆ expected_set
    ∧ resp = Response 200 (JDict (d ∪ c)) ∧ cs' = <[i := d ∪ c]> cs.
Proof.
  intros Hwf Hrun.
  assert (cs ≠ []) as Hne.
  { intros ->. destruct Hrun as [Hrun|Hrun];
      [rewrite put_country_run in Hrun|rewrite patch_country_run in Hrun];
      cbn [py_iter py_len] in Hrun; by destruct (all_recognized _). }
  assert (dom d ⊆ expected_set
          ∧ update_loop parm_id (JDict d) (seq 0 (length cs)) cs = (Ok resp, cs'))
    as [Hsub Hloop].
  { destruct Hrun as [Hrun|Hrun];
      [rewrite put_country_wf in Hrun by done
      |rewrite patch_country_wf in Hrun by done];
      (case_decide; [|done]); [by case_decide|done]. }
  rewrite update_scan_wf in Hloop by done.
  destruct (py_int parm_id) as [n|]; [|done].
  destruct (find_id n cs) as [[i c]|] eqn:Hfind; [|done].
  injection Hloop as <- <-. by exists n, i, c.
Qed.

(** X13.  What PUT or PATCH wrote can be read back: after a successful PUT
    or PATCH of an object, GET with the same parameter returns the very
    response the update returned, and GET of any other integer id answers
    what it answered before. *)
Theorem update_then_get parm_id (d : dict) cs resp cs' :
  wf_store cs →
  put_country parm_id (Json (JDict d)) cs = (Ok resp, cs')
  ∨ patch_country parm_id (Json (JDict d)) cs = (Ok resp, cs') →
  get_country_by_id parm_id cs' = (Ok resp, cs')
  ∧ ∀ parm_id' n n', py_int parm_id = Some n → py_int parm_id' = Some n' →
      n' ≠ n →
      (get_country_by_id parm_id' cs').1 = (get_country_by_id parm_id' cs).1.
Proof.
  intros Hwf Hrun.
  destruct (update_ok_wf parm_id d cs resp cs' Hwf Hrun)
    as (n & i & c & Hn & Hfind & Hsub & -> & ->).
  pose proof (find_id_Some _ _ _ _ Hfind) as (Hi & Hid & _).
  assert (wf_store (<[i := d ∪ c]> cs)) as Hwf'.
  { apply Forall_insert; [done|]. apply wf_country_union; [done|].
    by eapply wf_store_lookup. }
  assert (int_id (d ∪ c) = Some n) as Hid' by by rewrite int_id_union.
  split.
  - apply (get_wf_found parm_id n i); [done..|].
    by apply (find_id_insert_same n cs i c).
  - intros parm_id' n0 n' Hn0 Hn' Hne.
    rewrite Hn in Hn0. injection Hn0 as <-.
    assert (cs ≠ []) as Hne0 by (intros ->; done).
    apply (get_wf_same_lookup parm_id' n'); [done..| |done|].
    { intros Hnil%(f_equal length). rewrite length_insert in Hnil.
      by destruct cs. }
    by rewrite (find_id_insert_other n n' cs i c).
Qed.

Lemma update_then_get_witness :
  let c : dict := default ∅ (countries !! 1%nat) in
  let resp := Response 200 (JDict (germany ∪ c)) in
  let cs' := <[1%nat := germany ∪ c]> countries in
  (wf_store countries
   ∧ (put_country "2" (Json (JDict germany)) countries = (Ok resp, cs')
      ∨ patch_country "2" (Json (JDict germany)) countries = (Ok resp, cs')))
  ∧ get_country_by_id "2" cs' = (Ok resp, cs')
  ∧ ∀ parm_id' n n', py_int "2" = Some n → py_int parm_id' = Some n' →
      n' ≠ n →
      (get_country_by_id parm_id' cs').1
      = (get_country_by_id parm_id' countries).1.
Proof.
  intros c resp cs'.
  pose proof countries_inv as [Hwf _].
  assert (put_country "2" (Json (JDict germany)) countries = (Ok resp, cs')
          ∨ patch_country "2" (Json (JDict germany)) countries = (Ok resp, cs'))
    as Hrun by (left; reflexivity).
  split; [exact (conj Hwf Hrun)|].
  exact (update_then_get "2" germany countries resp cs' Hwf Hrun).
Defined.

(** X14.  DELETE of one id leaves the others readable: after a successful
    DELETE that leaves records behind, GET of any other integer id answers
    what it answered before. *)
Theorem delete_keeps_other_records parm_id n cs resp cs' :
  wf_store cs → py_int parm_id = Some n →
  delete_country parm_id cs = (Ok resp, cs') → cs' ≠ [] →
  ∀ parm_id' n', py_int parm_id' = Some n' → n' ≠ n →
    (get_country_by_id parm_id' cs').1 = (get_country_by_id parm_id' cs).1.
Proof.
  intros Hwf Hn Hrun Hne' parm_id' n' Hn' Hne.
  rewrite delete_country_wf, Hn in Hrun by done.
  destruct cs as [|a cs]; [done|].
  destruct (find_id n (a :: cs)) as [[i c]|] eqn:Hfind; [|done].
  injection Hrun as <- <-.
  pose proof (find_id_Some _ _ _ _ Hfind) as (Hi & Hid & _).
  apply (get_wf_same_lookup parm_id' n'); [done|by apply Forall_delete|done..|].
  by apply (find_id_delete_other n n' _ i c).
Qed.

Lemma delete_keeps_other_records_witness :
  let cs' := delete 1%nat countries in
  (wf_store countries ∧ py_int "2" = Some 2
   ∧ delete_country "2" countries = (Ok (Response 204 (JDict ∅)), cs')
   ∧ cs' ≠ [])
  ∧ ∀ parm_id' n', py_int parm_id' = Some n' → n' ≠ 2 →
      (get_country_by_id parm_id' cs').1
      = (get_country_by_id parm_id' countries).1.
Proof.
  intros cs'.
  pose proof countries_inv as [Hwf _].
  assert (py_int "2" = Some 2) as Hn by reflexivity.
  assert (delete_country "2" countries = (Ok (Response 204 (JDict ∅)), cs'))
    as Hrun by reflexivity.
  assert (cs' ≠ []) as Hne by done.
  split; [exact (conj Hwf (conj Hn (conj Hrun Hne)))|].
  exact (delete_keeps_other_records "2" 2 countries _ cs' Hwf Hn Hrun Hne).
Defined.

Lemma union_absorb (d c : dict) : d ∪ (d ∪ c) = d ∪ c.
Proof.
  apply map_eq. intros k. destruct (d !! k) as [v|] eqn:Hv.
  - by rewrite !(lookup_union_Some_l _ _ _ _ Hv).
  - by rewrite !lookup_union_r.
Qed.

Lemma update_scan_idem parm_id (d : dict) cs r cs' :
  wf_store cs → cs ≠ [] → dom d ⊆ expected_set →
  update_loop parm_id (JDict d) (seq 0 (length cs)) cs = (r, cs') →
  wf_store cs' ∧ cs' ≠ []
  ∧ update_loop parm_id (JDict d) (seq 0 (length cs')) cs' = (r, cs').
Proof.
  intros Hwf Hne Hsub Hrun. pose proof Hrun as Hrun'.
  rewrite update_scan_wf in Hrun by done.
  destruct (py_int parm_id) as [n|] eqn:Hn; [|by injection Hrun as <- <-].
  destruct (find_id n cs) as [[i c]|] eqn:Hfind; [|by injection Hrun as <- <-].
  injection Hrun as <- <-.
  pose proof (find_id_Some _ _ _ _ Hfind) as (Hi & Hid & _).
  assert (wf_store (<[i := d ∪ c]> cs)) as Hwf'.
  { apply Forall_insert; [done|]. apply wf_country_union; [done|].
    by eapply wf_store_lookup. }
  assert (<[i := d ∪ c]> cs ≠ []) as Hne'.
  { intros Hnil%(f_equal length). rewrite length_insert in Hnil.
    by destruct cs. }
  split; [done|]. split; [done|].
  rewrite update_scan_wf, Hn by done.
  rewrite (find_id_insert_same n cs i c (d ∪ c) Hfind)
    by by rewrite int_id_union.
  by rewrite union_absorb, list_insert_insert_eq.
Qed.

(** X15.  PUT and PATCH are idempotent: sending the same request again gets
    the same response and leaves the list as the first one left it. *)
Theorem update_idempotent parm_id (d : dict) cs r cs' :
  wf_store cs →
  (put_country parm_id (Json (JDict d)) cs = (r, cs') →
   put_country parm_id (Json (JDict d)) cs' = (r, cs'))
  ∧ (patch_country parm_id (Json (JDict d)) cs = (r, cs') →
     patch_country parm_id (Json (JDict d)) cs' = (r, cs')).
Proof.
  intros Hwf. destruct cs as [|first cs].
  { split; intros Hrun; pose proof Hrun as Hrun';
      [rewrite put_country_run in Hrun|rewrite patch_country_run in Hrun];
      cbn [py_iter py_len] in Hrun;
      destruct (all_recognized _); injection Hrun as _ <-; exact Hrun'. }
  assert (first :: cs ≠ []) as Hne by done.
  split; intros Hrun; pose proof Hrun as Hrun'.
  - rewrite put_country_wf in Hrun by done.
    case_decide as Hsub; [|by injection Hrun as _ <-].
    case_decide as Hsize; [|by injection Hrun as _ <-].
    destruct (update_scan_idem _ _ _ _ _ Hwf Hne Hsub Hrun)
      as (Hwf' & Hne' & Hidem).
    rewrite put_country_wf by done.
    by rewrite decide_True, decide_True by done.
  - rewrite patch_country_wf in Hrun by done.
    case_decide as Hsub; [|by injection Hrun as _ <-].
    destruct (update_scan_idem _ _ _ _ _ Hwf Hne Hsub Hrun)
      as (Hwf' & Hne' & Hidem).
    rewrite patch_country_wf by done.
    by rewrite decide_True by done.
Qed.

Lemma update_idempotent_witness :
  let c : dict := default ∅ (countries !! 1%nat) in
  let r : result response := Ok (Response 200 (JDict (germany ∪ c))) in
  let cs' := <[1%nat := germany ∪ c]> countries in
  (wf_store countries
   ∧ put_country "2" (Json (JDict germany)) countries = (r, cs'))
  ∧ put_country "2" (Json (JDict germany)) cs' = (r, cs').
Proof.
  intros c r cs'.
  pose proof countries_inv as [Hwf _].
  assert (put_country "2" (Json (JDict germany)) countries = (r, cs')) as Hrun
    by reflexivity.
  split; [exact (conj Hwf Hrun)|].
  exact (proj1 (update_idempotent "2" germany countries r cs' Hwf) Hrun).
Defined.

(** X16.  On a payload with all three attributes PUT and PATCH are the same
    operation: same response, same list afterwards, for every parameter. *)
Theorem put_patch_agree_on_full_payload parm_id (d : dict) cs :
  wf_store cs → dom d = expected_set →
  put_country parm_id (Json (JDict d)) cs
  = patch_country parm_id (Json (JDict d)) cs.
Proof.
  intros Hwf Hd. destruct cs as [|first cs].
  - rewrite put_country_run, patch_country_run. cbn [py_iter py_len].
    by destruct (all_recognized _).
  - rewrite put_country_wf, patch_country_wf by done.
    assert (dom d ⊆ expected_set) as Hsub by by rewrite Hd.
    assert (size d = 3%nat) as Hsize by by apply full_payload_size.
    by rewrite !decide_True by done.
Qed.

Lemma put_patch_agree_on_full_payload_witness :
  (wf_store countries ∧ dom germany = expected_set)
  ∧ put_country "3" (Json (JDict germany)) countries
    = patch_country "3" (Json (JDict germany)) countries.
Proof.
  pose proof countries_inv as [Hwf _].
  assert (dom germany = expected_set) as Hd by reflexivity.
  split; [exact (conj Hwf Hd)|].
  exact (put_patch_agree_on_full_payload "3" germany countries Hwf Hd).
Defined.

(** X17.  PATCH with the empty object changes nothing and answers like GET
    of the same parameter, on every non-empty list of well-formed records:
    the record with 200, 404 when there is none, 500 when the parameter is
    not an integer. *)
Theorem patch_empty_object_is_get parm_id cs :
  wf_store cs → cs ≠ [] →
  patch_country parm_id (Json (JDict ∅)) cs = get_country_by_id parm_id cs.
Proof.
  intros Hwf Hne.
  rewrite patch_country_wf, get_country_by_id_wf by done.
  rewrite decide_True by set_solver.
  rewrite update_scan_wf by done.
  destruct cs as [|a cs]; [done|].
  destruct (py_int parm_id) as [n|]; [|done].
  destruct (find_id n (a :: cs)) as [[i c]|] eqn:Hfind; [|done].
  apply find_id_Some in Hfind as (Hi & _ & _).
  by rewrite (left_id_L ∅ (∪)), list_insert_id.
Qed.

Lemma patch_empty_object_is_get_witness :
  (wf_store countries ∧ countries ≠ [])
  ∧ patch_country "1" (Json (JDict ∅)) countries
    = get_country_by_id "1" countries.
Proof.
  assert (wf_store countries ∧ countries ≠ []) as Hyp.
  { split; [apply countries_inv|by unfold countries]. }
  split; [exact Hyp|].
  exact (patch_empty_object_is_get "1" countries (proj1 Hyp) (proj2 Hyp)).
Defined.

(** ** The order of the ids *)

Lemma sublist_StronglySorted {A} (R : relation A) (l k : list A) :
  l `sublist_of` k → StronglySorted R k → StronglySorted R l.
Proof.
  induction 1 as [|x l k Hsub IH|x l k Hsub IH]; [done|..].
  - rewrite !StronglySorted_cons. intros [Hall Hk]. split; [|by apply IH].
    rewrite Forall_forall in *. intros y Hy. apply Hall.
    by eapply elem_of_sublist.
  - rewrite StronglySorted_cons. intros [_ Hk]. by apply IH.
Qed.

Lemma StronglySorted_lookup {A} (R : relation A) (l : list A) i j a b :
  StronglySorted R l → l !! i = Some a → l !! j = Some b → (i < j)%nat → R a b.
Proof.
  intros Hl. revert i j. induction Hl as [|x l _ IH Hall]; intros i j Hi Hj Hlt.
  { done. }
  destruct j as [|j]; [lia|]. destruct i as [|i].
  - injection Hi as <-. rewrite Forall_forall in Hall.
    apply Hall. by eapply list_elem_of_lookup_2.
  - apply (IH i j); [done..|lia].
Qed.

Lemma ids_lookup cs i (c : dict) :
  wf_store cs → cs !! i = Some c → ids cs !! i = int_id c.
Proof.
  intros Hwf. revert i. induction Hwf as [|a cs Ha _ IH]; intros i Hi; [done|].
  destruct (wf_country_id a Ha) as (n & _ & Hn).
  rewrite (ids_cons _ _ _ Hn). destruct i as [|i].
  - injection Hi as <-. by rewrite Hn.
  - by apply IH.
Qed.

(** The ids a request leaves behind: those of before without some, or those
    of before followed by one more than the greatest. *)
Lemma dispatch_ids c cs :
  wf_store cs →
  ids (dispatch c cs).2 `sublist_of` ids cs
  ∨ ∃ m, m ∈ ids cs ∧ (∀ x, x ∈ ids cs → x ≤ m)
       ∧ ids (dispatch c cs).2 = ids cs ++ [m + 1].
Proof.
  intros Hwf. destruct (dispatch c cs) as [[resp|e] cs'] eqn:Hd.
  2: { left. by rewrite <-Hd, (dispatch_raise_frame c cs e) by by rewrite Hd. }
  simpl. destruct c; cbn [dispatch] in Hd.
  - left. by injection Hd as _ <-.
  - right.
    destruct (add_country_ok_inv req cs resp cs' Hwf Hd)
      as (d & m & _ & _ & _ & Hm & Hle & _ & ->).
    exists m. split; [done|]. split; [done|].
    by rewrite ids_app, ids_unfold, int_id_new.
  - left. rewrite get_country_run in Hd. destruct (cs !! 1%nat); [|done].
    by injection Hd as _ <-.
  - left. by rewrite <-(get_country_by_id_frame parm_id cs), Hd.
  - left.
    destruct (update_ok_inv parm_id req cs resp cs' (or_introl Hd))
      as (payload & keys & _ & Hiter & Hall & Hloop).
    destruct (update_loop_ok _ _ _ _ _ _ Hiter Hall Hloop)
      as (i & ci & Hi & _ & _ & Hid & _ & ->).
    rewrite (ids_insert cs i ci); [done..|]. unfold int_id. by rewrite Hid.
  - left.
    destruct (update_ok_inv parm_id req cs resp cs' (or_intror Hd))
      as (payload & keys & _ & Hiter & Hall & Hloop).
    destruct (update_loop_ok _ _ _ _ _ _ Hiter Hall Hloop)
      as (i & ci & Hi & _ & _ & Hid & _ & ->).
    rewrite (ids_insert cs i ci); [done..|]. unfold int_id. by rewrite Hid.
  - left. unfold delete_country in Hd.
    rewrite (bind_ok _ _ cs cs cs) in Hd by done.
    destruct (delete_loop_cases parm_id (seq 0 (length cs)) cs)
      as [H|[H|(i & ci & _ & _ & _ & H)]]; rewrite H in Hd; [done..|].
    injection Hd as _ <-. apply ids_delete_sublist.
Qed.

Lemma reachable_ids_sorted cs :
  reachable cs →
  StronglySorted Z.lt (ids cs) ∧ Forall (λ x, 1 ≤ x) (ids cs).
Proof.
  induction 1 as [|c cs Hreach [Hsorted Hpos]].
  { split; by_decide. }
  pose proof (reachable_inv cs Hreach) as [Hwf _].
  destruct (dispatch_ids c cs Hwf) as [Hsub|(m & Hm & Hle & ->)].
  - split; [by eapply sublist_StronglySorted|].
    rewrite Forall_forall in *. intros x Hx. apply Hpos.
    by eapply elem_of_sublist.
  - rewrite Forall_forall in Hpos. split.
    + apply StronglySorted_app_2; [|done|repeat constructor].
      intros x y Hx%Hle ->%list_elem_of_singleton. lia.
    + apply Forall_app. split; [by apply Forall_forall|].
      apply Forall_singleton. specialize (Hpos m Hm). lia.
Qed.



(** X19.  In every list the application can hold, a successful POST gives
    the new record the id of the last record plus one; an id freed by
    deleting the last record is therefore given out again. *)
Theorem post_id_follows_last req cs resp cs' :
  reachable cs → add_country req cs = (Ok resp, cs') →
  ∃ (l d : dict) k,
    last cs = Some l ∧ int_id l = Some k ∧ req = Json (JDict d)
    ∧ resp = Response 201 (JDict (<["id" := JInt (k + 1)]> d))
    ∧ cs' = cs ++ [<["id" := JInt (k + 1)]> d].
Proof.
  intros Hreach Hrun.
  pose proof (reachable_inv cs Hreach) as [Hwf _].
  destruct (reachable_ids_sorted cs Hreach) as [Hsorted _].
  destruct (add_country_ok_inv req cs resp cs' Hwf Hrun)
    as (d & m & -> & _ & _ & Hm & Hle & -> & ->).
  apply list_elem_of_lookup in Hm as [i Hi].
  pose proof (lookup_lt_Some _ _ _ Hi) as Hlen.
  rewrite (ids_length cs Hwf) in Hlen.
  destruct (lookup_lt_is_Some_2 cs (pred (length cs))) as [l Hl]; [lia|].
  destruct (wf_country_id l (wf_store_lookup _ _ _ Hwf Hl)) as (k & _ & Hk).
  pose proof (ids_lookup cs _ l Hwf Hl) as Hlk. rewrite Hk in Hlk.
  assert (m = k) as ->.
  { destruct (decide (i = pred (length cs))) as [->|Hne]; [congruence|].
    pose proof (StronglySorted_lookup Z.lt (ids cs) i (pred (length cs)) m k
                  Hsorted Hi Hlk ltac:(lia)) as Hmk.
    specialize (Hle k (list_elem_of_lookup_2 _ _ _ Hlk)). lia. }
  exists l, d, k. split; [by rewrite last_lookup|]. done.
Qed.

Lemma post_id_follows_last_witness :
  let cs := (dispatch (DELETE_countries_id "3") countries).2 in
  let created := <["id" := JInt 3]> germany in
  (reachable cs
   ∧ add_country (Json (JDict germany)) cs
     = (Ok (Response 201 (JDict created)), cs ++ [created]))
  ∧ ∃ (l d : dict) k,
      last cs = Some l ∧ int_id l = Some k ∧ Json (JDict germany) = Json (JDict d)
      ∧ Response 201 (JDict created)
        = Response 201 (JDict (<["id" := JInt (k + 1)]> d))
      ∧ cs ++ [created] = cs ++ [<["id" := JInt (k + 1)]> d].
Proof.
  intros cs created.
  assert (reachable cs) as Hreach by apply reachable_step, reachable_init.
  assert (add_country (Json (JDict germany)) cs
          = (Ok (Response 201 (JDict created)), cs ++ [created])) as Hrun
    by reflexivity.
  split; [exact (conj Hreach Hrun)|].
  exact (post_id_follows_last _ cs _ _ Hreach Hrun).
Defined.

(** ** What the schema guarantees, and the statuses of each endpoint *)

(** X20.  A record created by POST is typed as the schema says: its [name]
    and [capital] are strings, its [area] is a number (not a bool), and its
    [id] is an int; it is the last record of the list. *)
Theorem post_creates_typed_record req cs resp cs' :
  wf_store cs → add_country req cs = (Ok resp, cs') →
  ∃ (c : dict) name capital area k,
    last cs' = Some c ∧ resp = Response 201 (JDict c)
    ∧ c !! "name" = Some (JStr name) ∧ c !! "capital" = Some (JStr capital)
    ∧ c !! "area" = Some area ∧ is_number area = true
    ∧ c !! "id" = Some (JInt k)
    ∧ dom c = country_fields.
Proof.
  intros Hwf Hrun.
  destruct (add_country_ok_inv req cs resp cs' Hwf Hrun)
    as (d & m & -> & Hvalid & Hd & _ & _ & -> & ->).
  cbn [validate] in Hvalid.
  repeat (apply andb_prop in Hvalid as [Hvalid ?]).
  unfold property_ok in *.
  assert (is_Some (d !! "area")) as [area Harea].
  { apply elem_of_dom. rewrite Hd. apply expected_set_elems. auto. }
  destruct (d !! "name") as [[| | | |name| |]|] eqn:Hname; try done.
  destruct (d !! "capital") as [[| | | |capital| |]|] eqn:Hcapital; try done.
  rewrite Harea in *.
  exists (<["id" := JInt (m + 1)]> d), name, capital, area, (m + 1).
  split; [apply last_snoc|]. split; [done|].
  rewrite !lookup_insert_ne by done. rewrite lookup_insert_eq.
  do 5 (split; [done|]).
  by rewrite dom_insert_L, Hd.
Qed.

Lemma post_creates_typed_record_witness :
  let created := <["id" := JInt 4]> germany in
  (wf_store countries
   ∧ add_country (Json (JDict germany)) countries
     = (Ok (Response 201 (JDict created)), countries ++ [created]))
  ∧ ∃ (c : dict) name capital area k,
      last (countries ++ [created]) = Some c
      ∧ Response 201 (JDict created) = Response 201 (JDict c)
      ∧ c !! "name" = Some (JStr name) ∧ c !! "capital" = Some (JStr capital)
      ∧ c !! "area" = Some area ∧ is_number area = true
      ∧ c !! "id" = Some (JInt k)
      ∧ dom c = country_fields.
Proof.
  intros created.
  pose proof countries_inv as [Hwf _].
  assert (add_country (Json (JDict germany)) countries
          = (Ok (Response 201 (JDict created)), countries ++ [created])) as Hrun
    by reflexivity.
  split; [exact (conj Hwf Hrun)|].
  exact (post_creates_typed_record _ _ _ _ Hwf Hrun).
Defined.

Lemma delete_country_status parm_id cs :
  http_status (delete_country parm_id cs).1 ∈ [204; 404; 500].
Proof.
  unfold delete_country. rewrite (bind_ok _ _ cs cs cs) by done.
  destruct (delete_loop_cases parm_id (seq 0 (length cs)) cs)
    as [->|[->|(i & ci & _ & _ & _ & ->)]]; simpl; set_solver.
Qed.

Lemma update_loop_status parm_id payload keys idxs cs :
  py_iter payload = Some keys → all_recognized keys = true →
  http_status (update_loop parm_id payload idxs cs).1 ∈ [200; 404; 500].
Proof.
  intros Hiter Hall.
  destruct (update_loop_cases parm_id payload keys idxs cs Hiter
              (all_recognized_Forall _ Hall))
    as [->|[->|(i & c & pre & post & _ & _ & _ & _ & ->)]]; simpl; set_solver.
Qed.

Lemma get_loop_status parm_id cs cs0 :
  http_status (get_loop parm_id cs cs0).1 ∈ [200; 404; 500].
Proof.
  induction cs as [|c cs IH]; [simpl; set_solver|].
  cbn [get_loop]. unfold mbind, M_bind. rewrite id_matches_run.
  destruct (c !! "id") as [v|]; [|simpl; set_solver].
  destruct (py_int parm_id) as [n|]; [|simpl; set_solver].
  destruct (py_eq_int v n); [simpl; set_solver|done].
Qed.

(** X21.  The statuses each endpoint can answer, on every list and every
    request: GET /countries only 200; GET /country 200 or 500; GET by id 200,
    404 or 500; POST 201, 400, 415, 422 or 500; PUT and PATCH 200, 400, 404,
    415, 422 or 500; DELETE 204, 404 or 500. *)
Theorem endpoint_statuses c cs :
  http_status (dispatch c cs).1
  ∈ match c with
    | GET_countries => [200]
    | GET_country => [200; 500]
    | GET_countries_id _ => [200; 404; 500]
    | POST_countries _ => [201; 400; 415; 422; 500]
    | PUT_countries_id _ _ | PATCH_countries_id _ _ =>
        [200; 400; 404; 415; 422; 500]
    | DELETE_countries_id _ => [204; 404; 500]
    end.
Proof.
  destruct c; cbn [dispatch].
  - simpl. set_solver.
  - rewrite add_country_run.
    destruct req as [| |payload]; [simpl; set_solver..|].
    destruct payload; try (simpl; set_solver).
    destruct (validate (JDict d)); [|simpl; set_solver].
    case_bool_decide; [|simpl; set_solver].
    destruct (cs !! 0%nat) as [first|]; [|simpl; set_solver].
    destruct (size d + 1 =? size first)%nat; [|simpl; set_solver].
    destruct (_find_next_id cs) as [[next_id|e] s] eqn:Hnext; [simpl; set_solver|].
    apply find_next_id_raise in Hnext as ->. simpl. set_solver.
  - rewrite get_country_run. destruct (cs !! 1%nat); simpl; set_solver.
  - unfold get_country_by_id. rewrite (bind_ok _ _ cs cs cs) by done.
    apply get_loop_status.
  - rewrite put_country_run.
    destruct req as [| |payload]; [simpl; set_solver..|].
    destruct (py_iter payload) as [keys|] eqn:Hiter; [|simpl; set_solver].
    destruct (all_recognized keys) eqn:Hall; [|simpl; set_solver].
    destruct (py_len payload) as [n|]; [|simpl; set_solver].
    destruct (cs !! 0%nat) as [first|]; [|simpl; set_solver].
    destruct (n + 1 =? size first)%nat; [|simpl; set_solver].
    pose proof (update_loop_status parm_id payload keys (seq 0 (length cs)) cs
                  Hiter Hall). set_solver.
  - rewrite patch_country_run.
    destruct req as [| |payload]; [simpl; set_solver..|].
    destruct (py_iter payload) as [keys|] eqn:Hiter; [|simpl; set_solver].
    destruct (all_recognized keys) eqn:Hall; [|simpl; set_solver].
    destruct (py_len payload) as [n|]; [|simpl; set_solver].
    destruct (cs !! 0%nat) as [first|]; [|simpl; set_solver].
    destruct (size first <? n + 1)%nat; [simpl; set_solver|].
    pose proof (update_loop_status parm_id payload keys (seq 0 (length cs)) cs
                  Hiter Hall). set_solver.
  - pose proof (delete_country_status parm_id cs). set_solver.
Qed.
